(** * LaterPay client: a shallow embedding of [laterpay/__init__.py]

    The module under study builds signed URLs for the LaterPay web
    dialogs and issues signed requests against the access API.  The
    embedding follows the Python source statement by statement:

    - Python values that travel through parameter maps and JSON
      responses are the inductive [pyval];
    - dictionaries are finite maps ([gmap string pyval]); the dictionaries
      that the code creates, copies and updates in place live in a store
      indexed by object identity ([loc]);
    - methods are computations in a state-and-exception monad [M] whose
      state holds the client object, the store, the trace of calls made to
      the signer, the wall clock and the random generator;
    - [signing.sign_and_encode], [compat.urlopen], [compat.quote_plus],
      [json.loads] and the random generator are not part of the module: they
      are section variables, so every theorem holds for all of them.

    Strings are Python 2 byte strings (the module uses [xrange]). *)

From Stdlib Require Import ZArith String Ascii List Bool Lia.
From stdpp Require Import base option gmap strings list.

Set Warnings "-register-all".
Local Open Scope string_scope.

(** ** Python values *)

Module Py.

Inductive pyval : Type :=
| PNone
| PBool (b : bool)
| PInt (z : Z)
| PFloat (literal : string)
| PStr (s : string)
| PList (items : list pyval)
| PTuple (items : list pyval)
| PDict (d : gmap string pyval).

(** [v == s] for a string literal [s]. *)
Definition eq_str (v : pyval) (s : string) : bool :=
  match v with
  | PStr t => String.eqb t s
  | _ => false
  end.

(** [v is not None] *)
Definition is_not_None (v : pyval) : bool :=
  match v with
  | PNone => false
  | _ => true
  end.

(** [isinstance(v, (list, tuple))] *)
Definition isinstance_list_tuple (v : pyval) : bool :=
  match v with
  | PList _ | PTuple _ => true
  | _ => false
  end.

(** [isinstance(v, int)]: [bool] is a subclass of [int].  [PInt] stands
    for Python 2's [int]; values of type [long] are not modelled. *)
Definition isinstance_int (v : pyval) : bool :=
  match v with
  | PInt _ | PBool _ => true
  | _ => false
  end.

(** [v in allowed] for a list of string literals. *)
Definition in_strs (v : pyval) (allowed : list string) : bool :=
  existsb (eq_str v) allowed.

(** Exceptions raised by the module or by the operations it applies to
    values. *)
Inductive exn : Type :=
| InvalidTokenException
| InvalidItemDefinition (message : string)
| APIException (message : string)
| Exception (args : list pyval)
| KeyError (key : string)
| TypeError
| AttributeError
| ValueError
| DanglingReference.

Inductive result (A : Type) : Type :=
| Ok (a : A)
| Raise (e : exn).
Arguments Ok {A} a.
Arguments Raise {A} e.

End Py.
Export Py.

(** ** String operations used by the module *)

Module Str.

Definition ord (c : ascii) : nat := nat_of_ascii c.

(** [65 <= ord(c) <= 90] *)
Definition is_upper (c : ascii) : bool := ((65 <=? ord c) && (ord c <=? 90))%nat.

(** The class [\d] on byte strings. *)
Definition is_digit (c : ascii) : bool := ((48 <=? ord c) && (ord c <=? 57))%nat.

(** [s.split(sep)] for a one-character separator: never returns the empty
    list, and [''.split(',')] is [['']]. *)
Fixpoint split (sep : ascii) (s : string) : list string :=
  match s with
  | EmptyString => [EmptyString]
  | String c rest =>
      if Ascii.eqb c sep then EmptyString :: split sep rest
      else match split sep rest with
           | tok :: toks => String c tok :: toks
           | [] => [String c EmptyString]
           end
  end.

(** [s[:n]] *)
Fixpoint take (n : nat) (s : string) : string :=
  match n, s with
  | S n', String c rest => String c (take n' rest)
  | _, _ => EmptyString
  end.

(** [s[n:]] *)
Fixpoint drop (n : nat) (s : string) : string :=
  match n, s with
  | S n', String _ rest => drop n' rest
  | _, _ => s
  end.

(** [all(p(c) for c in s)] *)
Fixpoint all (p : ascii -> bool) (s : string) : bool :=
  match s with
  | EmptyString => true
  | String c rest => p c && all p rest
  end.

(** [needle in haystack] on strings. *)
Fixpoint contains (needle haystack : string) : bool :=
  String.prefix needle haystack ||
  match haystack with
  | EmptyString => false
  | String _ rest => contains needle rest
  end.

(** *** The fragment of [re] the module uses

    [re.match] anchors the pattern at the start of the string only; what
    follows the match is not looked at. *)

(** Exactly [n] characters of class [p]; returns what follows them. *)
Fixpoint match_class_n (p : ascii -> bool) (n : nat) (s : string) : option string :=
  match n with
  | O => Some s
  | S n' =>
      match s with
      | String c rest => if p c then match_class_n p n' rest else None
      | EmptyString => None
      end
  end.

(** Zero or more characters of class [p], greedily. *)
Fixpoint skip_class (p : ascii -> bool) (s : string) : string :=
  match s with
  | String c rest => if p c then skip_class p rest else s
  | EmptyString => s
  end.

(** One or more characters of class [p], greedily. *)
Definition match_class_plus (p : ascii -> bool) (s : string) : option string :=
  match s with
  | String c rest => if p c then Some (skip_class p rest) else None
  | EmptyString => None
  end.

(** [re.match('[A-Z]{3}\d+', s)]: [Some rest] is a match object, with
    [rest] the unmatched remainder of [s]. *)
Definition re_match_pricing (s : string) : option string :=
  match match_class_n is_upper 3 s with
  | Some rest => match_class_plus is_digit rest
  | None => None
  end.

(** *** [float(s)] on a byte string

    Python strips surrounding white space, then accepts an optional sign
    followed by [inf], [infinity] or [nan] in any case, or by a decimal
    literal with at least one digit in the mantissa and an optional
    exponent.  Only success or failure matters to the module. *)

Definition is_space (c : ascii) : bool :=
  let n := ord c in ((n =? 32) || ((9 <=? n) && (n <=? 13)))%nat.

Definition lower (c : ascii) : ascii :=
  if is_upper c then ascii_of_nat (ord c + 32) else c.

Fixpoint lowercase (s : string) : string :=
  match s with
  | EmptyString => EmptyString
  | String c rest => String (lower c) (lowercase rest)
  end.

Definition strip_sign (s : string) : string :=
  match s with
  | String "+" rest | String "-" rest => rest
  | _ => s
  end.

(** [[eE][+-]?\d+] consuming the whole of [s], or nothing at all. *)
Definition exponent_ok (s : string) : bool :=
  match s with
  | EmptyString => true
  | String c rest =>
      if (Ascii.eqb c "e" || Ascii.eqb c "E")%char then
        match match_class_plus is_digit (strip_sign rest) with
        | Some EmptyString => true
        | _ => false
        end
      else false
  end.

Definition decimal_ok (s : string) : bool :=
  let int_rest := skip_class is_digit s in
  let int_digits := negb (String.eqb int_rest s) in
  match int_rest with
  | String "." frac =>
      let frac_rest := skip_class is_digit frac in
      let frac_digits := negb (String.eqb frac_rest frac) in
      (int_digits || frac_digits) && exponent_ok frac_rest
  | _ => int_digits && exponent_ok int_rest
  end.

Definition lstrip (s : string) : string := skip_class is_space s.

Fixpoint rstrip (s : string) : string :=
  match s with
  | EmptyString => EmptyString
  | String c rest =>
      match rstrip rest with
      | EmptyString => if is_space c then EmptyString else String c EmptyString
      | rest' => String c rest'
      end
  end.

(** [true] when [float(s)] returns, [false] when it raises [ValueError]. *)
Definition float_parses (s : string) : bool :=
  let body := strip_sign (rstrip (lstrip s)) in
  let low := lowercase body in
  String.eqb low "inf" || String.eqb low "infinity" || String.eqb low "nan"
  || decimal_ok body.

End Str.

(** ** Program state and the monad of methods *)

(** Object identities of the dictionaries the module allocates. *)
Definition loc : Type := positive.

Abbreviation dict := (gmap string pyval).

(** The attributes set by [LaterPayClient.__init__]. *)
Record LaterPayClient : Type := mkClient {
  cp_key : string;
  shared_secret : string;
  api_root : string;
  web_root : string;
  lptoken : pyval
}.

(** [LaterPayClient(cp_key, shared_secret, api_root=..., web_root=...,
    lptoken=None)] *)
Definition LaterPayClient_init (cp_key shared_secret : string)
    (api_root web_root : option string) (lptoken : option pyval) : LaterPayClient :=
  {| cp_key := cp_key;
     api_root := default "https://api.laterpay.net" api_root;
     web_root := default "https://web.laterpay.net" web_root;
     shared_secret := shared_secret;
     lptoken := default PNone lptoken |}.

(** One call of [signing.sign_and_encode], with the contents the parameter
    map had when the call was made. *)
Record sign_call : Type := mkSignCall {
  sc_secret : string;
  sc_params : dict;
  sc_url : string;
  sc_method : string
}.

Record state : Type := mkState {
  self : LaterPayClient;
  store : gmap loc (gmap string pyval);
  signer_calls : list sign_call;
  clock : Z;
  rng : N
}.

Definition set_self (c : LaterPayClient) (s : state) : state :=
  {| self := c; store := store s; signer_calls := signer_calls s;
     clock := clock s; rng := rng s |}.

Definition set_store (h : gmap loc (gmap string pyval)) (s : state) : state :=
  {| self := self s; store := h; signer_calls := signer_calls s;
     clock := clock s; rng := rng s |}.

(** The state [s] with the dictionary [d] stored at [l]. *)
Definition with_dict (l : loc) (d : dict) (s : state) : state :=
  set_store (<[l := d]> (store s)) s.

(** The state [s] after [self.lptoken = v]. *)
Definition with_lptoken (v : pyval) (s : state) : state :=
  set_self {| cp_key := cp_key (self s); shared_secret := shared_secret (self s);
              api_root := api_root (self s); web_root := web_root (self s);
              lptoken := v |} s.

Definition log_sign_call (c : sign_call) (s : state) : state :=
  {| self := self s; store := store s; signer_calls := (signer_calls s ++ [c])%list;
     clock := clock s; rng := rng s |}.

Definition set_rng (g : N) (s : state) : state :=
  {| self := self s; store := store s; signer_calls := signer_calls s;
     clock := clock s; rng := g |}.

(** A method either returns or raises; the state it leaves behind is kept
    in both cases, as in Python. *)
Definition M (A : Type) : Type := state -> result A * state.

Definition ret {A} (a : A) : M A := fun s => (Ok a, s).

Definition raise {A} (e : exn) : M A := fun s => (Raise e, s).

Definition bind {A B} (m : M A) (k : A -> M B) : M B :=
  fun s =>
    match m s with
    | (Ok a, s') => k a s'
    | (Raise e, s') => (Raise e, s')
    end.

(** An outcome that does not touch the state. *)
Definition lift {A} (r : result A) : M A := fun s => (r, s).

Definition gets {A} (f : state -> A) : M A := fun s => (Ok (f s), s).

Definition modify (f : state -> state) : M unit := fun s => (Ok tt, f s).

Declare Scope py_scope.
Delimit Scope py_scope with py.
Notation "'let!' x ':=' m 'in' k" := (bind m (fun x => k))
  (at level 10, x name, m at level 100, k at level 200) : py_scope.
Notation "m '>>' k" := (bind m (fun _ => k))
  (at level 90, right associativity) : py_scope.
Local Open Scope py_scope.

(** [if c: body] *)
Definition when (c : bool) (body : M unit) : M unit :=
  if c then body else ret tt.

(** [for x in xs: body(x)] *)
Fixpoint for_each {A} (xs : list A) (body : A -> M unit) : M unit :=
  match xs with
  | [] => ret tt
  | x :: rest => body x >> for_each rest body
  end.

(** *** Dictionaries in the store *)

(** A dictionary display [{...}] allocates a new object. *)
Definition new_dict (d : dict) : M loc :=
  fun s => let l := fresh (dom (store s)) in (Ok l, with_dict l d s).

Definition read_dict (l : loc) : M dict :=
  fun s =>
    match store s !! l with
    | Some d => (Ok d, s)
    | None => (Raise DanglingReference, s)
    end.

(** [copy.copy(l)]: a new dictionary with the same items. *)
Definition copy_copy (l : loc) : M loc :=
  let! d := read_dict l in new_dict d.

(** [l[k] = v] *)
Definition setitem (l : loc) (k : string) (v : pyval) : M unit :=
  let! d := read_dict l in
  modify (with_dict l (<[k := v]> d)).

(** [l.get(k, dflt)] *)
Definition dict_get (l : loc) (k : string) (dflt : pyval) : M pyval :=
  let! d := read_dict l in ret (default dflt (d !! k)).

(** [int(time.time())] *)
Definition time_time : M Z := gets clock.

(** ** [ItemDefinition] *)

Record ItemDefinition : Type := mkItem {
  data : loc
}.

Definition pricing_message (pricing : string) : string :=
  "Pricing is not valid: " ++ pricing.

Definition vat_length_message (v : string) : string :=
  "Invalid length for vat: " ++ v.

Definition vat_country_message (vat : string) : string :=
  "Invalid country for vat: " ++ vat.

Definition vat_number_message (vat : string) : string :=
  "Invalid number part for vat: " ++ vat.

(** The message is built without applying [%], so the [%s] stays in it. *)
Definition purchasedatetime_message : string :=
  "Invalid purchasedatetime %s. This should be a UTC-based epoch timestamp "
  ++ "in seconds of type int".

(** Body of the loop over [pricing.split(',')]. *)
Definition check_price (pricing price : string) : M unit :=
  match Str.re_match_pricing price with
  | None => raise (InvalidItemDefinition (pricing_message pricing))
  | Some _ => ret tt
  end.

(** Body of the loop over [vat.split(',')]. *)
Definition check_vat_token (vat v : string) : M unit :=
  when (String.length v <? 2)%nat
    (raise (InvalidItemDefinition (vat_length_message v))) >>
  when (negb (Str.all Str.is_upper (Str.take 2 v)))
    (raise (InvalidItemDefinition (vat_country_message vat))) >>
  when (negb (Str.float_parses (Str.drop 2 v)))
    (raise (InvalidItemDefinition (vat_number_message vat))).

(** The dictionary stored in [self.data]. *)
Definition item_data (item_id stamp : pyval) (pricing vat : string)
    (url title cp : pyval) : dict :=
  <["article_id" := item_id]>
   (<["purchasedatetime" := stamp]>
    (<["pricing" := PStr pricing]>
     (<["vat" := PStr vat]>
      (<["url" := url]>
       (<["title" := title]>
        (<["cp" := cp]> ∅)))))).

(** [ItemDefinition.__init__(item_id, pricing, vat, url, title,
    purchasedatetime=None, cp=None)]; an omitted keyword argument is
    [PNone]. *)
Definition ItemDefinition_init (item_id : pyval) (pricing vat : string)
    (url title purchasedatetime cp : pyval) : M ItemDefinition :=
  for_each (Str.split "," pricing) (check_price pricing) >>
  for_each (Str.split "," vat) (check_vat_token vat) >>
  when (is_not_None purchasedatetime && negb (isinstance_int purchasedatetime))
    (raise (InvalidItemDefinition purchasedatetime_message)) >>
  let! stamp :=
    (if is_not_None purchasedatetime then ret purchasedatetime
     else let! now := time_time in ret (PInt now)) in
  let! d := new_dict (item_data item_id stamp pricing vat url title cp) in
  ret {| data := d |}.

(** ** [LaterPayClient] *)

(** [compat.Request(url, data=..., headers=...)] *)
Record Request : Type := mkRequest {
  req_url : string;
  req_data : option string;
  req_headers : dict
}.

(** What [compat.urlopen(req).read()] does. *)
Inductive transport_outcome : Type :=
| Returned (response : string)
| RaisedURLError (reason : pyval)
| RaisedOther.

(** [string.ascii_letters] *)
Definition ascii_letters : string :=
  "abcdefghijklmnopqrstuvwxyzABCDEFGHIJKLMNOPQRSTUVWXYZ".

(** ['new_token' in resp]: key membership on a dictionary, element
    membership on a sequence, substring test on a string. *)
Definition contains_key (k : string) (resp : pyval) : M bool :=
  match resp with
  | PDict d => ret (match d !! k with Some _ => true | None => false end)
  | PList items | PTuple items => ret (existsb (fun v => eq_str v k) items)
  | PStr s => ret (Str.contains k s)
  | PNone | PBool _ | PInt _ | PFloat _ => raise TypeError
  end.

(** [resp[k]] for a string [k]. *)
Definition getitem (resp : pyval) (k : string) : M pyval :=
  match resp with
  | PDict d =>
      match d !! k with
      | Some v => ret v
      | None => raise (KeyError k)
      end
  | _ => raise TypeError
  end.

(** [resp.get(k, dflt)] *)
Definition get (resp : pyval) (k : string) (dflt : pyval) : M pyval :=
  match resp with
  | PDict d => ret (default dflt (d !! k))
  | _ => raise AttributeError
  end.

(** [self.lptoken = v] *)
Definition set_lptoken (v : pyval) : M unit := modify (with_lptoken v).

(** [if not isinstance(article_ids, (list, tuple)): article_ids = [article_ids]] *)
Definition normalize_ids (article_ids : pyval) : pyval :=
  if negb (isinstance_list_tuple article_ids) then PList [article_ids]
  else article_ids.

Section Client.

(** [signing.sign_and_encode(secret, params, url, method)] at a given clock
    reading: the contents of [params] after the call (the signer receives
    the dictionary itself and may add its own entries to it) and the
    encoded query string.  The signer is taken to return; it has no access
    to any other dictionary of the store. *)
Variable sign_and_encode : Z -> string -> dict -> string -> string -> dict * string.

(** [compat.quote_plus] *)
Variable quote_plus : string -> string.

(** [compat.urlopen(req).read()] *)
Variable urlopen_read : Request -> transport_outcome.

(** [json.loads]; [None] when it raises [ValueError]. *)
Variable json_loads : string -> option pyval.

(** The generator behind [random.choice]: a number and the next
    generator state. *)
Variable random_next : N -> nat * N.

(** [random.choice(seq)] on a non-empty string, from generator state [g]. *)
Definition random_choice (seq : string) (g : N) : ascii * N :=
  let '(n, g') := random_next g in
  (default "a"%char (String.get (n mod String.length seq) seq), g').

(** ["".join(random.choice(seq) for x in xrange(n))] *)
Fixpoint join_random_choices (seq : string) (n : nat) (g : N) : string * N :=
  match n with
  | O => (EmptyString, g)
  | S n' =>
      let '(c, g') := random_choice seq g in
      let '(rest, g'') := join_random_choices seq n' g' in
      (String c rest, g'')
  end.

Definition random_string (seq : string) (n : nat) : M string :=
  fun s =>
    let '(letters, g) := join_random_choices seq n (rng s) in
    (Ok letters, set_rng g s).

Definition _access_url : M string :=
  let! c := gets self in ret (api_root c ++ "/access").

Definition _add_url : M string :=
  let! c := gets self in ret (api_root c ++ "/add").

Definition _identify_url : M string :=
  let! c := gets self in ret (api_root c ++ "/identify").

Definition _gettoken_url : M string :=
  let! c := gets self in ret (api_root c ++ "/gettoken").

Definition _sign_and_encode (params : loc) (url method : string) : M string :=
  let! c := gets self in
  let! d := read_dict params in
  let! now := gets clock in
  let '(d', encoded) := sign_and_encode now (shared_secret c) d url method in
  modify (fun s =>
    log_sign_call {| sc_secret := shared_secret c; sc_params := d;
                     sc_url := url; sc_method := method |}
      (with_dict params d' s)) >>
  ret encoded.

Definition get_gettoken_redirect (return_to : pyval) : M string :=
  let! c := gets self in
  let! url := _gettoken_url in
  let! data := new_dict (<["redir" := return_to]> (<["cp" := PStr (cp_key c)]> ∅)) in
  let! params := _sign_and_encode data url "GET" in
  let url := url ++ "?" ++ params in
  ret url.

Definition get_identify_url (identify_callback : pyval) : M string :=
  let! c := gets self in
  let! base_url := _identify_url in
  let! data := new_dict (<["cp" := PStr (cp_key c)]> ∅) in
  when (is_not_None identify_callback)
    (setitem data "callback_url" identify_callback) >>
  let! params := _sign_and_encode data base_url "GET" in
  let url := base_url ++ "?" ++ params in
  ret url.

(** [data.get('show', '')] followed by ['%s...' %]: the entry, when
    present, was stored by the same call and is a string. *)
Definition get_show (data : loc) : M string :=
  let! v := dict_get data "show" (PStr "") in
  ret (match v with PStr s => s | _ => "" end).

Definition append_show (data : loc) (suffix : string) : M unit :=
  let! shown := get_show data in
  setitem data "show" (PStr (shown ++ suffix)).

Definition get_controls_links_url (next_url css_url forcelang : pyval)
    (show_greeting show_long_greeting show_login show_signup show_long_signup
     use_jsevents : bool) : M string :=
  let! c := gets self in
  let! data := new_dict (<["next" := next_url]> ∅) in
  setitem data "cp" (PStr (cp_key c)) >>
  when (is_not_None forcelang) (setitem data "forcelang" forcelang) >>
  when (is_not_None css_url) (setitem data "css" css_url) >>
  when use_jsevents (setitem data "jsevents" (PStr "1")) >>
  (if show_long_greeting then append_show data "gg"
   else when show_greeting (append_show data "g")) >>
  when show_login (append_show data "l") >>
  (if show_long_signup then append_show data "ss"
   else when show_signup (append_show data "s")) >>
  let! prefix := random_string ascii_letters 10 in
  setitem data "xdmprefix" (PStr prefix) >>
  let url := web_root c ++ "/controls/links" in
  let! params := _sign_and_encode data url "GET" in
  ret (url ++ "?" ++ params).

(** Deprecated alias: warns, then delegates. *)
Definition get_iframeapi_links_url (next_url css_url forcelang : pyval)
    (show_greeting show_long_greeting show_login show_signup show_long_signup
     use_jsevents : bool) : M string :=
  get_controls_links_url next_url css_url forcelang show_greeting
    show_long_greeting show_login show_signup show_long_signup use_jsevents.

Definition get_controls_balance_url (forcelang : pyval) : M string :=
  let! c := gets self in
  let! data := new_dict (<["cp" := PStr (cp_key c)]> ∅) in
  when (is_not_None forcelang) (setitem data "forcelang" forcelang) >>
  let! prefix := random_string ascii_letters 10 in
  setitem data "xdmprefix" (PStr prefix) >>
  let base_url := web_root c ++ "/controls/balance" in
  let! encoded_data := _sign_and_encode data base_url "GET" in
  let url := base_url ++ "?" ++ encoded_data in
  ret url.

(** Deprecated alias: warns, then delegates. *)
Definition get_iframeapi_balance_url (forcelang : pyval) : M string :=
  get_controls_balance_url forcelang.

Definition _get_dialog_api_url (url : string) : M string :=
  let! c := gets self in
  ret (web_root c ++ "/dialog-api?url=" ++ quote_plus url).

Definition get_login_dialog_url (next_url : string) (use_jsevents : bool) : M string :=
  let! c := gets self in
  let url := web_root c ++ "/account/dialog/login?next=" ++ quote_plus next_url
             ++ (if use_jsevents then "&jsevents=1" else "")
             ++ ("&cp=" ++ cp_key c) in
  _get_dialog_api_url url.

Definition get_signup_dialog_url (next_url : string) (use_jsevents : bool) : M string :=
  let! c := gets self in
  let url := web_root c ++ "/account/dialog/signup?next=" ++ quote_plus next_url
             ++ (if use_jsevents then "&jsevents=1" else "")
             ++ ("&cp=" ++ cp_key c) in
  _get_dialog_api_url url.

Definition get_logout_dialog_url (next_url : string) (use_jsevents : bool) : M string :=
  let! c := gets self in
  let url := web_root c ++ "/account/dialog/logout?next=" ++ quote_plus next_url
             ++ (if use_jsevents then "&jsevents=1" else "")
             ++ ("&cp=" ++ cp_key c) in
  _get_dialog_api_url url.

(** Truth value of [transaction_reference]: [None] and the empty string
    are false. *)
Definition truthy (o : option string) : bool :=
  match o with
  | Some (String _ _) => true
  | _ => false
  end.

Definition tref_message : string := "Transaction reference is not unique enough".

Definition _get_web_url (item_definition : ItemDefinition) (page_type : string)
    (product_key : option string) (dialog use_jsevents skip_add_to_invoice : bool)
    (transaction_reference : option string) (consumable : bool)
    (expires_at : pyval) : M string :=
  let! c := gets self in
  let! data := copy_copy (data item_definition) in
  when use_jsevents (setitem data "jsevents" (PInt 1)) >>
  when consumable (setitem data "consumable" (PInt 1)) >>
  when (is_not_None expires_at) (setitem data "expires_at" expires_at) >>
  when (truthy transaction_reference)
    (let tref := default "" transaction_reference in
     when (String.length tref <? 6)%nat (raise (APIException tref_message)) >>
     setitem data "tref" (PStr tref)) >>
  when skip_add_to_invoice (setitem data "skip_add_to_invoice" (PInt 1)) >>
  let prefix := if dialog then web_root c ++ "/" ++ "dialog" else web_root c in
  let base_url :=
    match product_key with
    | Some product_key => prefix ++ "/" ++ product_key ++ "/" ++ page_type
    | None => prefix ++ "/" ++ page_type
    end in
  let! params := _sign_and_encode data base_url "GET" in
  let url := base_url ++ "?" ++ params in
  _get_dialog_api_url url.

Definition get_buy_url (item_definition : ItemDefinition)
    (product_key : option string) (dialog use_jsevents skip_add_to_invoice : bool)
    (transaction_reference : option string) (consumable : bool)
    (expires_at : pyval) : M string :=
  _get_web_url item_definition "buy" product_key dialog use_jsevents
    skip_add_to_invoice transaction_reference consumable expires_at.

Definition get_add_url (item_definition : ItemDefinition)
    (product_key : option string) (dialog use_jsevents skip_add_to_invoice : bool)
    (transaction_reference : option string) (consumable : bool)
    (expires_at : pyval) : M string :=
  _get_web_url item_definition "add" product_key dialog use_jsevents
    skip_add_to_invoice transaction_reference consumable expires_at.

Definition request_headers : dict :=
  <["X-LP-APIVersion" := PInt 2]>
    (<["User-Agent" := PStr "LaterPay Client - Python - v0.2"]> ∅).

(** The request [_make_request] hands to the transport once the
    parameters are signed and encoded. *)
Definition build_request (url encoded method : string) : Request :=
  if String.eqb method "POST"
  then {| req_url := url; req_data := Some encoded; req_headers := request_headers |}
  else {| req_url := url ++ "?" ++ encoded; req_data := None;
          req_headers := request_headers |}.

(** The [try] statement of [_make_request]: the value bound to [resp], or
    the exception that escapes.  [json.loads] sits in the [else] clause, so
    what it raises is not caught. *)
Definition fetch (req : Request) : result pyval :=
  match urlopen_read req with
  | RaisedURLError _ => Ok (PDict (<["status" := PStr "connection_error"]> ∅))
  | RaisedOther => Ok (PDict (<["status" := PStr "unexpected error"]> ∅))
  | Returned response =>
      match json_loads response with
      | Some resp => Ok resp
      | None => Raise ValueError
      end
  end.

Definition _make_request (url : string) (params : loc) (method : string) : M pyval :=
  let! params := _sign_and_encode params url method in
  let req := build_request url params method in
  let! resp := lift (fetch req) in
  let! has_new := contains_key "new_token" resp in
  when has_new
    (let! token := getitem resp "new_token" in set_lptoken token) >>
  let! status := get resp "status" PNone in
  when (eq_str status "invalid_token") (set_lptoken PNone) >>
  ret resp.

Definition has_token : M bool :=
  let! c := gets self in ret (is_not_None (lptoken c)).

Definition add_metered_access (article_id threshold : pyval)
    (product_key : option string) : M unit :=
  let! c := gets self in
  let! params := new_dict
    (<["lptoken" := lptoken c]>
     (<["cp" := PStr (cp_key c)]>
      (<["threshold" := threshold]>
       (<["feature" := PStr "metered"]>
        (<["period" := PStr "monthly"]>
         (<["article_id" := article_id]> ∅)))))) in
  match product_key with
  | Some product_key => setitem params "product" (PStr product_key)
  | None => ret tt
  end >>
  let! url := _add_url in
  let! data := _make_request url params "POST" in
  let! status := getitem data "status" in
  when (eq_str status "invalid_token") (raise InvalidTokenException).

Definition get_metered_access (article_ids threshold : pyval)
    (product_key : option string) : M (pyval * pyval * pyval) :=
  let article_ids := normalize_ids article_ids in
  let! c := gets self in
  let! params := new_dict
    (<["lptoken" := lptoken c]>
     (<["cp" := PStr (cp_key c)]>
      (<["article_id" := article_ids]>
       (<["feature" := PStr "metered"]>
        (<["threshold" := threshold]>
         (<["period" := PStr "monthly"]> ∅)))))) in
  match product_key with
  | Some product_key => setitem params "product" (PStr product_key)
  | None => ret tt
  end >>
  let! url := _access_url in
  let! data := _make_request url params "GET" in
  let! subs := get data "subs" (PList []) in
  let! status := getitem data "status" in
  when (eq_str status "invalid_token") (raise InvalidTokenException) >>
  let! status := getitem data "status" in
  when (negb (eq_str status "ok")) (raise (Exception [])) >>
  let! exceeded := get data "exceeded" (PBool false) in
  let! articles := getitem data "articles" in
  ret (articles, exceeded, subs).

Definition allowed_statuses : list string := ["ok"; "invalid_token"; "connection_error"].

Definition get_access (article_ids : pyval) (product_key : option string) : M pyval :=
  let article_ids := normalize_ids article_ids in
  let! c := gets self in
  let! params := new_dict
    (<["lptoken" := lptoken c]>
     (<["cp" := PStr (cp_key c)]>
      (<["article_id" := article_ids]> ∅))) in
  match product_key with
  | Some product_key => setitem params "product" (PStr product_key)
  | None => ret tt
  end >>
  let! url := _access_url in
  let! data := _make_request url params "GET" in
  let! status := getitem data "status" in
  when (negb (in_strs status allowed_statuses))
    (let! status := getitem data "status" in raise (Exception [status])) >>
  ret data.

End Client.

(** ** Reading of the specification's pricing grammar

    The specification describes a pricing token as three upper-case
    currency letters immediately followed by digits, with no decimal
    point permitted; [Spec.pricing_token] is that reading (the whole token
    is letters then digits), to be compared with what [re.match] does. *)

Module Spec.

Definition pricing_token (s : string) : bool :=
  match Str.match_class_n Str.is_upper 3 s with
  | Some rest =>
      match Str.match_class_plus Str.is_digit rest with
      | Some EmptyString => true
      | _ => false
      end
  | None => false
  end.

End Spec.

(** ** Properties the theorems are stated with *)

(** The token starts with three upper-case letters and a digit. *)
Definition currency_prefix (price : string) : Prop :=
  ∃ a b c d rest,
    price = String a (String b (String c (String d rest)))
    ∧ Str.is_upper a = true ∧ Str.is_upper b = true ∧ Str.is_upper c = true
    ∧ Str.is_digit d = true.

(** [re.match] returned a match object for the token. *)
Definition price_ok (price : string) : bool :=
  match Str.re_match_pricing price with
  | Some _ => true
  | None => false
  end.

(** The three checks [ItemDefinition.__init__] applies to a VAT token. *)
Definition vat_token_valid (v : string) : bool :=
  (2 <=? String.length v)%nat
  && Str.all Str.is_upper (Str.take 2 v)
  && Str.float_parses (Str.drop 2 v).

(** The message raised for an invalid VAT token [v] of the string [vat]. *)
Definition vat_token_message (vat v : string) : string :=
  if (String.length v <? 2)%nat then vat_length_message v
  else if negb (Str.all Str.is_upper (Str.take 2 v)) then vat_country_message vat
  else vat_number_message vat.

(** [purchasedatetime] is omitted or an [int]. *)
Definition purchasedatetime_valid (v : pyval) : bool :=
  negb (is_not_None v && negb (isinstance_int v)).

(** A builder run from [s] with outcome [out] made exactly one call to the
    signer, on some parameter map [d] for the URL [base], and returned
    [wrap] applied to [base], a question mark and the signer's output. *)
Definition signed_by (sign_and_encode : Z -> string -> dict -> string -> string -> dict * string)
    (s : state) (out : result string * state) (base : string)
    (wrap : string -> string) (d : dict) : Prop :=
  signer_calls (snd out)
    = (signer_calls s ++ [mkSignCall (shared_secret (self s)) d base "GET"])%list
  ∧ fst out
    = Ok (wrap (base ++ "?"
                ++ snd (sign_and_encode (clock s) (shared_secret (self s)) d base "GET"))).

(** The wrapping of [_get_dialog_api_url]. *)
Definition dialog_api (quote_plus : string -> string) (c : LaterPayClient)
    (url : string) : string :=
  web_root c ++ "/dialog-api?url=" ++ quote_plus url.

(** The parameter map [_get_web_url] hands to the signer, from the
    contents [d0] of the item definition's map. *)
Definition web_params (d0 : dict) (use_jsevents skip_add_to_invoice : bool)
    (transaction_reference : option string) (consumable : bool)
    (expires_at : pyval) : dict :=
  let d1 := if use_jsevents then <["jsevents" := PInt 1]> d0 else d0 in
  let d2 := if consumable then <["consumable" := PInt 1]> d1 else d1 in
  let d3 := if is_not_None expires_at then <["expires_at" := expires_at]> d2 else d2 in
  let d4 := if truthy transaction_reference
            then <["tref" := PStr (default "" transaction_reference)]> d3 else d3 in
  if skip_add_to_invoice then <["skip_add_to_invoice" := PInt 1]> d4 else d4.

(** The URL [_get_web_url] signs. *)
Definition web_base_url (c : LaterPayClient) (page_type : string)
    (product_key : option string) (dialog : bool) : string :=
  let prefix := if dialog then web_root c ++ "/" ++ "dialog" else web_root c in
  match product_key with
  | Some product_key => prefix ++ "/" ++ product_key ++ "/" ++ page_type
  | None => prefix ++ "/" ++ page_type
  end.

(** The stored token after a response map [r] has been processed, from
    the token [old] stored before. *)
Definition token_after (r : dict) (old : pyval) : pyval :=
  if eq_str (default PNone (r !! "status")) "invalid_token" then PNone
  else default old (r !! "new_token").

(** The state after [_make_request] has processed a response map [r]. *)
Definition absorb_tokens (r : dict) (s : state) : state :=
  let s' := match r !! "new_token" with
            | Some token => with_lptoken token s
            | None => s
            end in
  if eq_str (default PNone (r !! "status")) "invalid_token"
  then with_lptoken PNone s' else s'.

(** The state once the parameter map [d] stored at [l] has been signed:
    the call is logged and the signer's changes to the map are stored. *)
Definition signed_state (sign_and_encode : Z -> string -> dict -> string -> string -> dict * string)
    (l : loc) (d : dict) (url method : string) (s : state) : state :=
  log_sign_call (mkSignCall (shared_secret (self s)) d url method)
    (with_dict l (fst (sign_and_encode (clock s) (shared_secret (self s)) d url method)) s).

(** The request [_make_request] hands to the transport for the parameter
    map [d]. *)
Definition issued_request (sign_and_encode : Z -> string -> dict -> string -> string -> dict * string)
    (d : dict) (url method : string) (s : state) : Request :=
  build_request url
    (snd (sign_and_encode (clock s) (shared_secret (self s)) d url method)) method.

(** [params["product"] = product_key] when a product key is given. *)
Definition with_product (product_key : option string) (d : dict) : dict :=
  match product_key with
  | Some product_key => <["product" := PStr product_key]> d
  | None => d
  end.

(** The parameter map of [get_access]. *)
Definition access_params (c : LaterPayClient) (article_ids : pyval)
    (product_key : option string) : dict :=
  with_product product_key
    (<["lptoken" := lptoken c]>
     (<["cp" := PStr (cp_key c)]>
      (<["article_id" := normalize_ids article_ids]> ∅))).

(** The parameter map of [get_metered_access]. *)
Definition metered_params (c : LaterPayClient) (article_ids threshold : pyval)
    (product_key : option string) : dict :=
  with_product product_key
    (<["lptoken" := lptoken c]>
     (<["cp" := PStr (cp_key c)]>
      (<["article_id" := normalize_ids article_ids]>
       (<["feature" := PStr "metered"]>
        (<["threshold" := threshold]>
         (<["period" := PStr "monthly"]> ∅)))))).

(** The two pages served by [_get_web_url], with the public method that
    builds each. *)
Inductive shop_page : Type := Buy | Add.

Definition page_type_of (page : shop_page) : string :=
  match page with
  | Buy => "buy"
  | Add => "add"
  end.

Definition shop_url (sign_and_encode : Z -> string -> dict -> string -> string -> dict * string)
    (quote_plus : string -> string) (page : shop_page) :
    ItemDefinition -> option string -> bool -> bool -> bool -> option string ->
    bool -> pyval -> M string :=
  match page with
  | Buy => get_buy_url sign_and_encode quote_plus
  | Add => get_add_url sign_and_encode quote_plus
  end.

(** The three account dialogs, with the public method that builds each. *)
Inductive account_dialog : Type := Login | Signup | Logout.

Definition dialog_name (dialog : account_dialog) : string :=
  match dialog with
  | Login => "login"
  | Signup => "signup"
  | Logout => "logout"
  end.

Definition account_dialog_url (quote_plus : string -> string) (dialog : account_dialog) :
    string -> bool -> M string :=
  match dialog with
  | Login => get_login_dialog_url quote_plus
  | Signup => get_signup_dialog_url quote_plus
  | Logout => get_logout_dialog_url quote_plus
  end.

(** A transaction reference the buy and add builders reject. *)
Definition tref_rejected (transaction_reference : option string) : bool :=
  truthy transaction_reference
  && (String.length (default "" transaction_reference) <? 6)%nat.

(** ** Concrete instances used by the examples *)

Module Demo.

Definition client0 : LaterPayClient :=
  LaterPayClient_init "cp-key" "secret" None None None.

Definition state0 : state :=
  {| self := client0; store := ∅; signer_calls := [];
     clock := 1400000000; rng := 0 |}.

(** A signer that stamps the map and returns a fixed encoding. *)
Definition sign_and_encode (now : Z) (secret : string) (d : dict)
    (url method : string) : dict * string :=
  (<["ts" := PInt now]> d, "ts=1400000000&hmac=" ++ secret).

Definition hex_digit (n : nat) : ascii :=
  default "0"%char (String.get n "0123456789ABCDEF").

Definition is_lower (c : ascii) : bool :=
  ((97 <=? Str.ord c) && (Str.ord c <=? 122))%nat.

Definition always_safe (c : ascii) : bool :=
  Str.is_upper c || is_lower c || Str.is_digit c
  || Ascii.eqb c "_" || Ascii.eqb c "." || Ascii.eqb c "-".

(** [urllib.quote_plus] of Python 2 on a byte string. *)
Fixpoint quote_plus (s : string) : string :=
  match s with
  | EmptyString => EmptyString
  | String c rest =>
      if always_safe c then String c (quote_plus rest)
      else if Ascii.eqb c " " then String "+" (quote_plus rest)
      else String "%" (String (hex_digit (Str.ord c / 16))
                         (String (hex_digit (Str.ord c mod 16)) (quote_plus rest)))
  end.

(** A transport that answers every request with the same body, and a
    decoder that maps every body to the same value. *)
Definition urlopen_read (outcome : transport_outcome) (req : Request) : transport_outcome :=
  outcome.

Definition json_loads (resp : pyval) (body : string) : option pyval := Some resp.

Definition random_next (g : N) : nat * N := (N.to_nat g, (g + 7)%N).

(** The map of an item definition and a state that holds it at [item]. *)
Definition item_dict : dict :=
  item_data (PStr "a1") (PInt 1400000000) "EUR2" "DE19"
    (PStr "http://example.com/a1") (PStr "Article") PNone.

Definition item : ItemDefinition := {| data := 1%positive |}.

Definition state_with_item : state := with_dict 1%positive item_dict state0.

(** A state that holds a parameter map at location [1]. *)
Definition request_params : dict :=
  <["lptoken" := PNone]> (<["cp" := PStr "cp-key"]> ∅).

Definition state_with_params : state := with_dict 1%positive request_params state0.

Definition response_ok : dict :=
  <["status" := PStr "ok"]>
    (<["articles" := PDict (<["abc123" := PBool true]> ∅)]> ∅).

Definition response_teapot : dict := <["status" := PStr "teapot"]> ∅.

Definition response_metered : dict :=
  <["status" := PStr "ok"]>
    (<["articles" := PDict (<["a1" := PBool false]> ∅)]>
      (<["exceeded" := PBool true]>
        (<["subs" := PList []]> ∅))).

Definition response_both : dict :=
  <["new_token" := PStr "fresh-token"]> (<["status" := PStr "invalid_token"]> ∅).

End Demo.

(** ** Further definitions the theorems are stated with *)

(** Every dictionary of [s] is in [s'] with the same contents. *)
Definition preserves_store (s s' : state) : Prop :=
  ∀ l, l ∈ dom (store s) → store s' !! l = store s !! l.

(** The parameter map of [add_metered_access]. *)
Definition add_params (c : LaterPayClient) (article_id threshold : pyval)
    (product_key : option string) : dict :=
  with_product product_key
    (<["lptoken" := lptoken c]>
     (<["cp" := PStr (cp_key c)]>
      (<["threshold" := threshold]>
       (<["feature" := PStr "metered"]>
        (<["period" := PStr "monthly"]>
         (<["article_id" := article_id]> ∅)))))).

(** The string under ["show"], the empty string when there is none. *)
Definition shown (d : dict) : string :=
  match d !! "show" with
  | Some (PStr s) => s
  | _ => ""
  end.

(** [data['show'] = '%s<suffix>' % data.get('show', '')] on the contents
    of the map. *)
Definition add_show (suffix : string) (d : dict) : dict :=
  <["show" := PStr (shown d ++ suffix)]> d.

(** The letters the [show_*] arguments of [get_controls_links_url] add up
    to: the long form of a flag wins over the short one. *)
Definition show_flags (show_greeting show_long_greeting show_login show_signup
    show_long_signup : bool) : string :=
  (if show_long_greeting then "gg" else if show_greeting then "g" else "")
  ++ (if show_login then "l" else "")
  ++ (if show_long_signup then "ss" else if show_signup then "s" else "").

(** The parameter map of [get_controls_links_url], for the random prefix
    [prefix]. *)
Definition links_params (c : LaterPayClient) (next_url css_url forcelang : pyval)
    (show_greeting show_long_greeting show_login show_signup show_long_signup
     use_jsevents : bool) (prefix : string) : dict :=
  let d0 := <["cp" := PStr (cp_key c)]> (<["next" := next_url]> ∅) in
  let d1 := if is_not_None forcelang then <["forcelang" := forcelang]> d0 else d0 in
  let d2 := if is_not_None css_url then <["css" := css_url]> d1 else d1 in
  let d3 := if use_jsevents then <["jsevents" := PStr "1"]> d2 else d2 in
  let d4 := if show_long_greeting then add_show "gg" d3
            else if show_greeting then add_show "g" d3 else d3 in
  let d5 := if show_login then add_show "l" d4 else d4 in
  let d6 := if show_long_signup then add_show "ss" d5
            else if show_signup then add_show "s" d5 else d5 in
  <["xdmprefix" := PStr prefix]> d6.

(** The parameter map of [get_controls_balance_url]. *)
Definition balance_params (c : LaterPayClient) (forcelang : pyval)
    (prefix : string) : dict :=
  let d0 := <["cp" := PStr (cp_key c)]> ∅ in
  let d1 := if is_not_None forcelang then <["forcelang" := forcelang]> d0 else d0 in
  <["xdmprefix" := PStr prefix]> d1.

(** An ASCII letter. *)
Definition is_letter (c : ascii) : bool :=
  Str.is_upper c || ((97 <=? Str.ord c) && (Str.ord c <=? 122))%nat.

(** The keys [_get_web_url] may add to the copy of the item's map. *)
Definition web_option_keys : list string :=
  ["jsevents"; "consumable"; "expires_at"; "tref"; "skip_add_to_invoice"].

(** What the token handling of [_make_request] raises on a decoded body
    that is not a dictionary: indexing a sequence or a string with
    ['new_token'] is a [TypeError], as is the membership test on a number, a
    boolean or [None]; a sequence or string without ['new_token'] has no
    [get] method. *)
Definition non_dict_error (resp : pyval) : exn :=
  match resp with
  | PStr s => if Str.contains "new_token" s then TypeError else AttributeError
  | PList items | PTuple items =>
      if existsb (fun v => eq_str v "new_token") items then TypeError
      else AttributeError
  | _ => TypeError
  end.

(** The state [_make_request] leaves behind, from the outcome of its [try]
    statement, when the parameter map [d] is stored at [l]. *)
Definition request_state (sign_and_encode : Z -> string -> dict -> string -> string -> dict * string)
    (l : loc) (d : dict) (url method : string) (fetched : result pyval)
    (s : state) : state :=
  match fetched with
  | Ok (PDict r) => absorb_tokens r (signed_state sign_and_encode l d url method s)
  | _ => signed_state sign_and_encode l d url method s
  end.

(** ** Further concrete instances used by the examples *)

Module Demo2.

(** A response that refreshes the token. *)
Definition response_refreshed : dict :=
  <["new_token" := PStr "fresh-token"]>
    (<["status" := PStr "ok"]>
      (<["articles" := PDict (<["abc123" := PBool true]> ∅)]> ∅)).

(** A response that reports an invalid token. *)
Definition response_invalid : dict := <["status" := PStr "invalid_token"]> ∅.

(** A client that holds a token. *)
Definition state_with_token : state :=
  with_lptoken (PStr "old-token") Demo.state0.

End Demo2.

(** * Theorems *)

(** ** Running the monad *)

Lemma bind_ok {A B} (m : M A) (k : A -> M B) s a s' :
  m s = (Ok a, s') -> bind m k s = k a s'.
Proof. intros H. unfold bind. now rewrite H. Qed.

Lemma bind_raise {A B} (m : M A) (k : A -> M B) s e s' :
  m s = (Raise e, s') -> bind m k s = (Raise e, s').
Proof. intros H. unfold bind. now rewrite H. Qed.

(** A loop whose body either passes without touching the state or raises
    stops at the first element that raises. *)
Lemma for_each_find {A} (ok : A -> bool) (err : A -> exn) (body : A -> M unit) xs s :
  (forall x s, body x s = if ok x then (Ok tt, s) else (Raise (err x), s)) ->
  for_each xs body s =
    match List.find (fun x => negb (ok x)) xs with
    | None => (Ok tt, s)
    | Some x => (Raise (err x), s)
    end.
Proof.
  intros Hbody. induction xs as [|x xs IH]; simpl; [reflexivity|].
  unfold bind. rewrite Hbody. destruct (ok x); simpl; [apply IH | reflexivity].
Qed.

Lemma find_none_iff {A} (p : A -> bool) xs :
  List.find p xs = None <-> forall x, x ∈ xs -> p x = false.
Proof.
  split.
  - intros H x Hx. apply list_elem_of_In in Hx. exact (List.find_none p xs H x Hx).
  - induction xs as [|y ys IH]; simpl; intros H; [reflexivity|].
    rewrite (H y) by left. apply IH. intros x Hx. apply H. now right.
Qed.

Lemma find_some_elem {A} (p : A -> bool) xs x :
  List.find p xs = Some x -> x ∈ xs ∧ p x = true.
Proof.
  intros H. apply List.find_some in H as [Hin Hp].
  split; [now apply list_elem_of_In | exact Hp].
Qed.

(** ** [ItemDefinition]: validation *)

Lemma price_ok_prefix price : price_ok price = true <-> currency_prefix price.
Proof.
  unfold price_ok, Str.re_match_pricing, currency_prefix. split.
  - intros H.
    destruct price as [|a [|b [|c [|d rest]]]]; simpl in H.
    + discriminate H.
    + destruct (Str.is_upper a); simpl in H; discriminate H.
    + destruct (Str.is_upper a), (Str.is_upper b); simpl in H; discriminate H.
    + destruct (Str.is_upper a), (Str.is_upper b), (Str.is_upper c); simpl in H; discriminate H.
    + destruct (Str.is_upper a) eqn:Ha; [|discriminate H].
      destruct (Str.is_upper b) eqn:Hb; [|discriminate H].
      destruct (Str.is_upper c) eqn:Hc; [|discriminate H].
      unfold Str.match_class_plus in H.
      destruct (Str.is_digit d) eqn:Hd; [|discriminate H].
      exists a, b, c, d, rest. auto.
  - intros (a & b & c & d & rest & -> & Ha & Hb & Hc & Hd). simpl.
    unfold Str.match_class_plus. now rewrite Ha, Hb, Hc, Hd.
Qed.

Lemma check_price_run pricing price s :
  check_price pricing price s =
    if price_ok price then (Ok tt, s)
    else (Raise (InvalidItemDefinition (pricing_message pricing)), s).
Proof. unfold check_price, price_ok. now destruct (Str.re_match_pricing price). Qed.

Lemma check_vat_token_run vat v s :
  check_vat_token vat v s =
    if vat_token_valid v then (Ok tt, s)
    else (Raise (InvalidItemDefinition (vat_token_message vat v)), s).
Proof.
  unfold check_vat_token, vat_token_valid, vat_token_message, bind, when, ret, raise.
  rewrite Nat.ltb_antisym.
  destruct (2 <=? String.length v)%nat; cbn [negb andb]; [|reflexivity].
  destruct (Str.all Str.is_upper (Str.take 2 v)); cbn [negb andb]; [|reflexivity].
  destruct (Str.float_parses (Str.drop 2 v)); reflexivity.
Qed.

(** The constructor, step by step. *)
Lemma ItemDefinition_init_run item_id pricing vat url title purchasedatetime cp s :
  ItemDefinition_init item_id pricing vat url title purchasedatetime cp s =
    match List.find (fun p => negb (price_ok p)) (Str.split "," pricing) with
    | Some _ => (Raise (InvalidItemDefinition (pricing_message pricing)), s)
    | None =>
        match List.find (fun v => negb (vat_token_valid v)) (Str.split "," vat) with
        | Some v => (Raise (InvalidItemDefinition (vat_token_message vat v)), s)
        | None =>
            if purchasedatetime_valid purchasedatetime
            then
              let stamp := if is_not_None purchasedatetime then purchasedatetime
                           else PInt (clock s) in
              let l := fresh (dom (store s)) in
              (Ok {| data := l |},
               with_dict l (item_data item_id stamp pricing vat url title cp) s)
            else (Raise (InvalidItemDefinition purchasedatetime_message), s)
        end
    end.
Proof.
  unfold ItemDefinition_init.
  unfold bind at 1.
  rewrite (for_each_find price_ok
             (fun _ => InvalidItemDefinition (pricing_message pricing)))
    by apply check_price_run.
  destruct (List.find _ (Str.split "," pricing)); [reflexivity|].
  unfold bind at 1.
  rewrite (for_each_find vat_token_valid
             (fun v => InvalidItemDefinition (vat_token_message vat v)))
    by apply check_vat_token_run.
  destruct (List.find _ (Str.split "," vat)); [reflexivity|].
  unfold purchasedatetime_valid, bind, when.
  destruct (is_not_None purchasedatetime) eqn:Hn; simpl.
  - now destruct (isinstance_int purchasedatetime).
  - reflexivity.
Qed.

Lemma vat_message_not_pricing vat v pricing :
  vat_token_message vat v ≠ pricing_message pricing.
Proof.
  unfold vat_token_message, pricing_message, vat_length_message,
    vat_country_message, vat_number_message.
  destruct (String.length v <? 2)%nat; [discriminate|].
  destruct (negb _); discriminate.
Qed.

Lemma all_prices_ok_find pricing :
  (∀ price, price ∈ Str.split "," pricing → currency_prefix price) ->
  List.find (fun p => negb (price_ok p)) (Str.split "," pricing) = None.
Proof.
  intros H. apply find_none_iff. intros p Hp.
  apply H, price_ok_prefix in Hp. now rewrite Hp.
Qed.

(** C6 (as amended): the constructor raises the pricing error exactly when
    some comma-separated token of [pricing] does not start with three
    upper-case ASCII letters followed by a digit; what follows that prefix is
    not examined.  With a valid VAT string, ["EUR2,USD3"], ["EUR2"] and
    ["EUR2.50"] are accepted and ["eur2"] is rejected. *)
Theorem pricing_validation :
  (∀ item_id pricing vat url title purchasedatetime cp s,
     fst (ItemDefinition_init item_id pricing vat url title purchasedatetime cp s)
       = Raise (InvalidItemDefinition (pricing_message pricing))
     ↔ ∃ price, price ∈ Str.split "," pricing ∧ ¬ currency_prefix price)
  ∧ (∀ item_id url title cp s,
       Forall (fun pricing =>
                 ∃ item, fst (ItemDefinition_init item_id pricing "DE19" url title
                                PNone cp s) = Ok item)
         ["EUR2,USD3"; "EUR2"; "EUR2.50"])
  ∧ (∀ item_id vat url title purchasedatetime cp s,
       fst (ItemDefinition_init item_id "eur2" vat url title purchasedatetime cp s)
       = Raise (InvalidItemDefinition "Pricing is not valid: eur2")).
Proof.
  split; [|split].
  - intros. rewrite ItemDefinition_init_run. split.
    + destruct (List.find _ (Str.split "," pricing)) as [p|] eqn:Hp.
      * intros _. apply find_some_elem in Hp as [Hin Hbad].
        exists p. split; [exact Hin|].
        intros Hpre. apply price_ok_prefix in Hpre. now rewrite Hpre in Hbad.
      * destruct (List.find _ (Str.split "," vat)) as [v|].
        -- simpl. intros [= H]. now apply vat_message_not_pricing in H.
        -- destruct (purchasedatetime_valid purchasedatetime); simpl;
             discriminate.
    + intros (p & Hin & Hbad).
      destruct (List.find _ (Str.split "," pricing)) as [q|] eqn:Hq; [reflexivity|].
      exfalso. apply Hbad, price_ok_prefix.
      pose proof (proj1 (find_none_iff _ _) Hq p Hin) as Hp.
      simpl in Hp. now apply negb_false_iff in Hp.
  - intros item_id url title cp s.
    repeat constructor; rewrite ItemDefinition_init_run; eexists; reflexivity.
  - intros. now rewrite ItemDefinition_init_run.
Qed.

Lemma pricing_validation_witness :
  ∃ price, price ∈ Str.split "," "EUR2,eur3" ∧ ¬ currency_prefix price.
Proof.
  refine (proj1 (proj1 pricing_validation (PStr "a1") "EUR2,eur3" "DE19"
                   (PStr "http://example.com/a1") (PStr "Article") PNone PNone
                   Demo.state0) _).
  reflexivity.
Defined.

(** C6, as stated, fails: ["EUR2.50"] is not letters followed by digits
    only, and the constructor accepts it. *)
Lemma pricing_decimal_accepted :
  Spec.pricing_token "EUR2.50" = false
  ∧ fst (ItemDefinition_init (PStr "a1") "EUR2.50" "DE19" (PStr "http://example.com/a1")
           (PStr "Article") PNone PNone Demo.state0)
    = Ok {| data := 1%positive |}.
Proof. split; reflexivity. Qed.

Lemma find_first {A} (p : A -> bool) xs x :
  List.find p xs = Some x ->
  ∃ before after, xs = (before ++ x :: after)%list
                  ∧ (∀ u, u ∈ before -> p u = false) ∧ p x = true.
Proof.
  induction xs as [|y ys IH]; simpl; [discriminate|].
  destruct (p y) eqn:Hy.
  - intros [= ->]. exists [], ys. split; [reflexivity|]. split; [|exact Hy].
    intros u Hu. inversion Hu.
  - intros Hfind. destruct (IH Hfind) as (before & after & -> & Hbefore & Hx).
    exists (y :: before), after. split; [reflexivity|]. split; [|exact Hx].
    intros u Hu. apply elem_of_cons in Hu as [->|Hu]; [exact Hy | now apply Hbefore].
Qed.

(** C8 (as amended): with a valid pricing string and time stamp, the
    constructor raises [InvalidItemDefinition] exactly when some
    comma-separated token of [vat] is shorter than two characters, or its
    first two characters are not both upper-case ASCII letters, or the rest
    does not parse as a number; the tokens are checked from left to right,
    and the message names which of the three checks (length, country,
    number part) failed for the first invalid token. *)
Theorem vat_validation item_id pricing vat url title purchasedatetime cp s :
  (∀ price, price ∈ Str.split "," pricing → currency_prefix price) →
  purchasedatetime_valid purchasedatetime = true →
  let outcome :=
    fst (ItemDefinition_init item_id pricing vat url title purchasedatetime cp s) in
  ((∃ m, outcome = Raise (InvalidItemDefinition m))
   ↔ ∃ v, v ∈ Str.split "," vat ∧ vat_token_valid v = false)
  ∧ (∀ e, outcome = Raise e →
       ∃ before v after,
         Str.split "," vat = (before ++ v :: after)%list
         ∧ (∀ u, u ∈ before → vat_token_valid u = true)
         ∧ v ∈ Str.split "," vat ∧ vat_token_valid v = false
         ∧ e = InvalidItemDefinition (vat_token_message vat v))
  ∧ (∀ before v after,
       Str.split "," vat = (before ++ v :: after)%list →
       (∀ u, u ∈ before → vat_token_valid u = true) →
       vat_token_valid v = false →
       outcome = Raise (InvalidItemDefinition (vat_token_message vat v)))
  ∧ ((∀ v, v ∈ Str.split "," vat → vat_token_valid v = true) →
       ∃ item, outcome = Ok item).
Proof.
  intros Hprices Hstamp outcome. subst outcome.
  rewrite ItemDefinition_init_run, (all_prices_ok_find _ Hprices), Hstamp.
  destruct (List.find _ (Str.split "," vat)) as [v|] eqn:Hv.
  - pose proof (find_some_elem _ _ _ Hv) as [Hin Hbad].
    apply negb_true_iff in Hbad.
    destruct (find_first _ _ _ Hv) as (before & after & Hsplit & Hbefore & _).
    assert (Hvalid : ∀ u, u ∈ before → vat_token_valid u = true).
    { intros u Hu. apply Hbefore in Hu. now apply negb_false_iff in Hu. }
    cbn [fst]. split; [|split; [|split]].
    + split; intros _; eauto.
    + intros e [= <-]. exists before, v, after. auto.
    + intros before' v' after' Hsplit' Hvalid' Hbad'.
      rewrite Hsplit' in Hv.
      assert (Hfind : List.find (fun v => negb (vat_token_valid v))
                        (before' ++ v' :: after')%list = Some v').
      { clear -Hvalid' Hbad'. induction before' as [|u us IH]; simpl.
        - now rewrite Hbad'.
        - rewrite (Hvalid' u) by left. simpl. apply IH.
          intros w Hw. apply Hvalid'. now right. }
      rewrite Hfind in Hv. now injection Hv as ->.
    + intros Hall. rewrite (Hall v Hin) in Hbad. discriminate.
  - pose proof (proj1 (find_none_iff _ _) Hv) as Hall. cbn [fst].
    split; [|split; [|split]].
    + split.
      * intros [m Hm]. discriminate.
      * intros (v & Hin & Hbad). apply Hall in Hin. simpl in Hin.
        rewrite Hbad in Hin. discriminate.
    + intros e He. discriminate.
    + intros before v after Hsplit _ Hbad. exfalso.
      assert (Hin : v ∈ Str.split "," vat).
      { rewrite Hsplit. apply elem_of_app. right. left. }
      apply Hall in Hin. simpl in Hin. rewrite Hbad in Hin. discriminate.
    + intros _. eauto.
Qed.

Lemma vat_validation_witness :
  (∃ item, fst (ItemDefinition_init (PStr "a1") "EUR2,USD3" "DE19" (PStr "http://example.com/a1")
                  (PStr "Article") PNone PNone Demo.state0) = Ok item)
  ∧ fst (ItemDefinition_init (PStr "a1") "EUR2,USD3" "DE19,D,DEx"
           (PStr "http://example.com/a1") (PStr "Article") PNone PNone Demo.state0)
    = Raise (InvalidItemDefinition "Invalid length for vat: D")
  ∧ fst (ItemDefinition_init (PStr "a1") "EUR2,USD3" "D19"
           (PStr "http://example.com/a1") (PStr "Article") PNone PNone Demo.state0)
    = Raise (InvalidItemDefinition "Invalid country for vat: D19")
  ∧ fst (ItemDefinition_init (PStr "a1") "EUR2,USD3" "DEx"
           (PStr "http://example.com/a1") (PStr "Article") PNone PNone Demo.state0)
    = Raise (InvalidItemDefinition "Invalid number part for vat: DEx").
Proof.
  assert (Hprices : ∀ price, price ∈ Str.split "," "EUR2,USD3" → currency_prefix price).
  { intros price Hin. apply price_ok_prefix.
    repeat (apply elem_of_cons in Hin as [->|Hin]); [reflexivity|reflexivity|inversion Hin]. }
  split; [|split; [|split]].
  - apply (proj2 (proj2 (proj2
             (vat_validation (PStr "a1") "EUR2,USD3" "DE19" (PStr "http://example.com/a1")
                (PStr "Article") PNone PNone Demo.state0 Hprices eq_refl)))).
    intros v Hin.
    repeat (apply elem_of_cons in Hin as [->|Hin]); [reflexivity|inversion Hin].
  - refine (proj1 (proj2 (proj2
              (vat_validation (PStr "a1") "EUR2,USD3" "DE19,D,DEx"
                 (PStr "http://example.com/a1") (PStr "Article") PNone PNone
                 Demo.state0 Hprices eq_refl)))
              ["DE19"] "D" ["DEx"] _ _ _).
    + reflexivity.
    + intros u Hu.
      repeat (apply elem_of_cons in Hu as [->|Hu]); [reflexivity|inversion Hu].
    + reflexivity.
  - refine (proj1 (proj2 (proj2
              (vat_validation (PStr "a1") "EUR2,USD3" "D19"
                 (PStr "http://example.com/a1") (PStr "Article") PNone PNone
                 Demo.state0 Hprices eq_refl)))
              [] "D19" [] _ _ _).
    + reflexivity.
    + intros u Hu. inversion Hu.
    + reflexivity.
  - refine (proj1 (proj2 (proj2
              (vat_validation (PStr "a1") "EUR2,USD3" "DEx"
                 (PStr "http://example.com/a1") (PStr "Article") PNone PNone
                 Demo.state0 Hprices eq_refl)))
              [] "DEx" [] _ _ _).
    + reflexivity.
    + intros u Hu. inversion Hu.
    + reflexivity.
Defined.

(** C8, as stated, fails on the message: a token shorter than two
    characters is rejected with a message about its length, which names
    neither the country nor the number part. *)
Lemma vat_short_token_message :
  fst (ItemDefinition_init (PStr "a1") "EUR2" "D" (PStr "http://example.com/a1")
         (PStr "Article") PNone PNone Demo.state0)
    = Raise (InvalidItemDefinition "Invalid length for vat: D")
  ∧ "Invalid length for vat: D" ≠ vat_country_message "D"
  ∧ "Invalid length for vat: D" ≠ vat_number_message "D".
Proof. repeat split; discriminate. Qed.

(** ** The store *)

Lemma fresh_unallocated (s : state) : store s !! fresh (dom (store s)) = None.
Proof. apply not_elem_of_dom, is_fresh. Qed.

Lemma lookup_with_dict l d s : store (with_dict l d s) !! l = Some d.
Proof. apply lookup_insert_eq. Qed.

Lemma lookup_with_dict_ne l l' d s :
  l ≠ l' -> store (with_dict l d s) !! l' = store s !! l'.
Proof. intros. now apply lookup_insert_ne. Qed.

Lemma with_dict_twice l d d' s : with_dict l d' (with_dict l d s) = with_dict l d' s.
Proof. unfold with_dict, set_store; simpl. now rewrite insert_insert_eq. Qed.

Lemma with_dict_same l d s : store s !! l = Some d -> with_dict l d s = s.
Proof.
  intros H. unfold with_dict, set_store. rewrite insert_id by exact H. now destruct s.
Qed.

Lemma new_dict_run d s : new_dict d s = (Ok (fresh (dom (store s))), with_dict (fresh (dom (store s))) d s).
Proof. reflexivity. Qed.

Lemma read_dict_run l d s : store s !! l = Some d -> read_dict l s = (Ok d, s).
Proof. intros H. unfold read_dict. now rewrite H. Qed.

Lemma copy_copy_run l d s :
  store s !! l = Some d ->
  copy_copy l s = (Ok (fresh (dom (store s))), with_dict (fresh (dom (store s))) d s).
Proof. intros H. unfold copy_copy, bind. now rewrite (read_dict_run _ _ _ H). Qed.

Lemma copy_copy_dangling l s :
  store s !! l = None -> copy_copy l s = (Raise DanglingReference, s).
Proof. intros H. unfold copy_copy, bind, read_dict. now rewrite H. Qed.

Lemma setitem_run l k v d s :
  setitem l k v (with_dict l d s) = (Ok tt, with_dict l (<[k := v]> d) s).
Proof.
  unfold setitem, bind. rewrite (read_dict_run _ _ _ (lookup_with_dict l d s)).
  unfold modify. now rewrite with_dict_twice.
Qed.

Lemma when_setitem_run (c : bool) l k v d s :
  when c (setitem l k v) (with_dict l d s)
  = (Ok tt, with_dict l (if c then <[k := v]> d else d) s).
Proof. destruct c; [apply setitem_run | reflexivity]. Qed.

Lemma dict_get_run l k dflt d s :
  dict_get l k dflt (with_dict l d s) = (Ok (default dflt (d !! k)), with_dict l d s).
Proof.
  unfold dict_get, bind. now rewrite (read_dict_run _ _ _ (lookup_with_dict l d s)).
Qed.

(** Random letters only advance the generator. *)
Lemma with_dict_set_rng l d g s : set_rng g (with_dict l d s) = with_dict l d (set_rng g s).
Proof. reflexivity. Qed.

Section ClientFacts.

Variable sign_and_encode : Z -> string -> dict -> string -> string -> dict * string.
Variable quote_plus : string -> string.
Variable urlopen_read : Request -> transport_outcome.
Variable json_loads : string -> option pyval.
Variable random_next : N -> nat * N.

Lemma random_string_run seq n l d s :
  random_string random_next seq n (with_dict l d s)
  = (Ok (fst (join_random_choices random_next seq n (rng s))),
     with_dict l d (set_rng (snd (join_random_choices random_next seq n (rng s))) s)).
Proof.
  unfold random_string. simpl.
  now destruct (join_random_choices random_next seq n (rng s)).
Qed.

Lemma sign_run l url method d s :
  _sign_and_encode sign_and_encode l url method (with_dict l d s)
  = (Ok (snd (sign_and_encode (clock s) (shared_secret (self s)) d url method)),
     log_sign_call (mkSignCall (shared_secret (self s)) d url method)
       (with_dict l (fst (sign_and_encode (clock s) (shared_secret (self s)) d url method)) s)).
Proof.
  unfold _sign_and_encode, bind, gets.
  rewrite (read_dict_run _ _ _ (lookup_with_dict l d s)). simpl.
  destruct (sign_and_encode (clock s) (shared_secret (self s)) d url method) as [d' enc].
  unfold modify, ret. simpl. now rewrite with_dict_twice.
Qed.

Lemma append_show_run l sfx d s :
  ∃ d', append_show l sfx (with_dict l d s) = (Ok tt, with_dict l d' s).
Proof.
  unfold append_show, get_show, bind. rewrite dict_get_run. unfold ret.
  rewrite setitem_run. eauto.
Qed.


(** *** Builders that sign *)

Ltac run_with lem := rewrite lem; cbv beta iota.

Lemma get_gettoken_redirect_signed return_to s :
  signed_by sign_and_encode s (get_gettoken_redirect sign_and_encode return_to s)
    (api_root (self s) ++ "/gettoken") (fun url => url)
    (<["redir" := return_to]> (<["cp" := PStr (cp_key (self s))]> ∅)).
Proof.
  unfold signed_by, get_gettoken_redirect, _gettoken_url.
  cbv [bind gets ret]. run_with new_dict_run. run_with sign_run.
  split; reflexivity.
Qed.

Lemma get_identify_url_signed identify_callback s :
  signed_by sign_and_encode s (get_identify_url sign_and_encode identify_callback s)
    (api_root (self s) ++ "/identify") (fun url => url)
    (if is_not_None identify_callback
     then <["callback_url" := identify_callback]> (<["cp" := PStr (cp_key (self s))]> ∅)
     else <["cp" := PStr (cp_key (self s))]> ∅).
Proof.
  unfold signed_by, get_identify_url, _identify_url.
  cbv [bind gets ret]. run_with new_dict_run. run_with when_setitem_run.
  run_with sign_run. split; reflexivity.
Qed.

Lemma show_step_run (long short : bool) l d s :
  ∃ d', (if long then append_show l "gg"
         else when short (append_show l "g")) (with_dict l d s)
        = (Ok tt, with_dict l d' s)
      ∧ ∃ d'', (if long then append_show l "ss"
                else when short (append_show l "s")) (with_dict l d s)
               = (Ok tt, with_dict l d'' s).
Proof.
  destruct long; [|destruct short]; simpl.
  - destruct (append_show_run l "gg" d s) as [d1 H1].
    destruct (append_show_run l "ss" d s) as [d2 H2]. eauto.
  - destruct (append_show_run l "g" d s) as [d1 H1].
    destruct (append_show_run l "s" d s) as [d2 H2]. eauto.
  - eauto.
Qed.

Lemma when_append_show_run (c : bool) l sfx d s :
  ∃ d', when c (append_show l sfx) (with_dict l d s) = (Ok tt, with_dict l d' s).
Proof. destruct c; [apply append_show_run | simpl; eauto]. Qed.

Lemma get_controls_links_url_signed next_url css_url forcelang
    show_greeting show_long_greeting show_login show_signup show_long_signup
    use_jsevents s :
  ∃ d, signed_by sign_and_encode s
         (get_controls_links_url sign_and_encode random_next next_url css_url forcelang
            show_greeting show_long_greeting show_login show_signup show_long_signup
            use_jsevents s)
         (web_root (self s) ++ "/controls/links") (fun url => url) d.
Proof.
  unfold signed_by, get_controls_links_url.
  cbv [bind gets ret]. run_with new_dict_run. run_with setitem_run.
  do 3 run_with when_setitem_run.
  match goal with |- context [with_dict ?l ?d s] =>
    destruct (show_step_run show_long_greeting show_greeting l d s) as (d1 & H1 & _) end.
  run_with H1.
  destruct (when_append_show_run show_login (fresh (dom (store s))) "l" d1 s) as [d2 H2].
  run_with H2.
  destruct (show_step_run show_long_signup show_signup (fresh (dom (store s))) d2 s)
    as (_ & _ & d3 & H3).
  run_with H3. run_with random_string_run. run_with setitem_run.
  run_with sign_run. eexists. split; reflexivity.
Qed.

Lemma get_controls_balance_url_signed forcelang s :
  ∃ d, signed_by sign_and_encode s
         (get_controls_balance_url sign_and_encode random_next forcelang s)
         (web_root (self s) ++ "/controls/balance") (fun url => url) d.
Proof.
  unfold signed_by, get_controls_balance_url.
  cbv [bind gets ret]. run_with new_dict_run. run_with when_setitem_run.
  run_with random_string_run. run_with setitem_run.
  run_with sign_run. eexists. split; reflexivity.
Qed.

End ClientFacts.

Section WebUrlFacts.

Variable sign_and_encode : Z -> string -> dict -> string -> string -> dict * string.
Variable quote_plus : string -> string.

Lemma _get_web_url_run item page_type product_key dialog use_jsevents skip tref
    consumable expires_at d0 s :
  store s !! data item = Some d0 ->
  tref_rejected tref = false ->
  let l := fresh (dom (store s)) in
  let base := web_base_url (self s) page_type product_key dialog in
  let d := web_params d0 use_jsevents skip tref consumable expires_at in
  let signed := sign_and_encode (clock s) (shared_secret (self s)) d base "GET" in
  _get_web_url sign_and_encode quote_plus item page_type product_key dialog
    use_jsevents skip tref consumable expires_at s
  = (Ok (dialog_api quote_plus (self s) (base ++ "?" ++ snd signed)),
     log_sign_call (mkSignCall (shared_secret (self s)) d base "GET")
       (with_dict l (fst signed) s)).
Proof.
  intros Hd0 Htref. unfold _get_web_url, _get_dialog_api_url.
  cbv [bind gets ret]. rewrite (copy_copy_run _ _ _ Hd0); cbv beta iota.
  do 3 (rewrite when_setitem_run; cbv beta iota).
  unfold tref_rejected in Htref.
  destruct tref as [[|c t]|]; cbn [truthy when default andb] in *;
    try rewrite Htref; cbn [when]; cbv [ret]; cbv beta iota;
    try (rewrite setitem_run; cbv beta iota);
    rewrite when_setitem_run; cbv beta iota;
    rewrite sign_run; cbv beta iota; reflexivity.
Qed.

Lemma _get_web_url_rejected item page_type product_key dialog use_jsevents skip tref
    consumable expires_at d0 s :
  store s !! data item = Some d0 ->
  tref_rejected tref = true ->
  ∃ d, _get_web_url sign_and_encode quote_plus item page_type product_key dialog
         use_jsevents skip tref consumable expires_at s
       = (Raise (APIException tref_message), with_dict (fresh (dom (store s))) d s).
Proof.
  intros Hd0 Htref. unfold _get_web_url, _get_dialog_api_url.
  cbv [bind gets ret]. rewrite (copy_copy_run _ _ _ Hd0); cbv beta iota.
  do 3 (rewrite when_setitem_run; cbv beta iota).
  unfold tref_rejected in Htref.
  destruct tref as [[|c t]|]; cbn [truthy when default andb] in *;
    try discriminate Htref.
  rewrite Htref. cbn [when]. cbv [raise]. eauto.
Qed.

Lemma _get_web_url_dangling item page_type product_key dialog use_jsevents skip tref
    consumable expires_at s :
  store s !! data item = None ->
  _get_web_url sign_and_encode quote_plus item page_type product_key dialog
    use_jsevents skip tref consumable expires_at s
  = (Raise DanglingReference, s).
Proof.
  intros Hd0. unfold _get_web_url. cbv [bind gets ret].
  now rewrite (copy_copy_dangling _ _ Hd0).
Qed.

End WebUrlFacts.

(** ** Requests and the stored token *)

Lemma lptoken_absorb_tokens r s :
  lptoken (self (absorb_tokens r s)) = token_after r (lptoken (self s)).
Proof.
  unfold absorb_tokens, token_after.
  destruct (eq_str _ _); [reflexivity|].
  now destruct (r !! "new_token").
Qed.

Lemma store_absorb_tokens r s : store (absorb_tokens r s) = store s.
Proof.
  unfold absorb_tokens. destruct (eq_str _ _), (r !! "new_token"); reflexivity.
Qed.

Lemma signer_calls_absorb_tokens r s :
  signer_calls (absorb_tokens r s) = signer_calls s.
Proof.
  unfold absorb_tokens. destruct (eq_str _ _), (r !! "new_token"); reflexivity.
Qed.

Section RequestFacts.

Variable sign_and_encode : Z -> string -> dict -> string -> string -> dict * string.
Variable urlopen_read : Request -> transport_outcome.
Variable json_loads : string -> option pyval.

Lemma _make_request_dict url l method d s r :
  fetch urlopen_read json_loads (issued_request sign_and_encode d url method s) = Ok (PDict r) ->
  _make_request sign_and_encode urlopen_read json_loads url l method (with_dict l d s)
  = (Ok (PDict r), absorb_tokens r (signed_state sign_and_encode l d url method s)).
Proof.
  intros Hfetch. unfold _make_request. cbv [bind]. rewrite sign_run. cbv beta iota.
  unfold issued_request in Hfetch. unfold lift. rewrite Hfetch. cbv beta iota.
  unfold absorb_tokens, signed_state. cbn [contains_key getitem get ret].
  destruct (r !! "new_token") as [token|]; cbn [when set_lptoken modify bind ret default];
    destruct (eq_str (default PNone (r !! "status")) "invalid_token");
    reflexivity.
Qed.

Lemma _make_request_raise url l method d s e :
  fetch urlopen_read json_loads (issued_request sign_and_encode d url method s) = Raise e ->
  _make_request sign_and_encode urlopen_read json_loads url l method (with_dict l d s)
  = (Raise e, signed_state sign_and_encode l d url method s).
Proof.
  intros Hfetch. unfold _make_request. cbv [bind]. rewrite sign_run. cbv beta iota.
  unfold issued_request in Hfetch. unfold lift. now rewrite Hfetch.
Qed.

Lemma _make_request_not_dict url l method d s resp :
  fetch urlopen_read json_loads (issued_request sign_and_encode d url method s) = Ok resp ->
  (∀ r, resp ≠ PDict r) ->
  ∃ e, _make_request sign_and_encode urlopen_read json_loads url l method (with_dict l d s)
       = (Raise e, signed_state sign_and_encode l d url method s).
Proof.
  intros Hfetch Hnd. unfold _make_request. cbv [bind]. rewrite sign_run. cbv beta iota.
  unfold issued_request in Hfetch. unfold lift. rewrite Hfetch. cbv beta iota.
  destruct resp as [| | | | str | items | items | r];
    cbn [contains_key getitem get ret raise when];
    try (eexists; reflexivity).
  - destruct (Str.contains "new_token" str); cbn [when bind getitem raise];
      eexists; reflexivity.
  - destruct (existsb _ items); cbn [when bind getitem raise]; eexists; reflexivity.
  - destruct (existsb _ items); cbn [when bind getitem raise]; eexists; reflexivity.
  - now destruct (Hnd r).
Qed.

Lemma _make_request_dangling url l method s :
  store s !! l = None ->
  _make_request sign_and_encode urlopen_read json_loads url l method s
  = (Raise DanglingReference, s).
Proof.
  intros H. unfold _make_request, _sign_and_encode, read_dict. cbv [bind gets].
  now rewrite H.
Qed.

End RequestFacts.

Lemma self_with_dict l d s : self (with_dict l d s) = self s.
Proof. reflexivity. Qed.

Lemma product_step_run product_key l d s :
  match product_key with
  | Some product_key => setitem l "product" (PStr product_key)
  | None => ret tt
  end (with_dict l d s)
  = (Ok tt, with_dict l (with_product product_key d) s).
Proof. destruct product_key; [apply setitem_run | reflexivity]. Qed.

Lemma eq_str_true v str : eq_str v str = true <-> v = PStr str.
Proof.
  destruct v; simpl; try (split; [discriminate | intros [=]]).
  rewrite String.eqb_eq. split; [now intros -> | now intros [= ->]].
Qed.

Lemma in_allowed_statuses status :
  in_strs status allowed_statuses = true
  <-> status = PStr "ok" ∨ status = PStr "invalid_token" ∨ status = PStr "connection_error".
Proof.
  unfold in_strs, allowed_statuses. simpl. rewrite !orb_true_iff, !eq_str_true.
  intuition discriminate.
Qed.

Section AccessFacts.

Variable sign_and_encode : Z -> string -> dict -> string -> string -> dict * string.
Variable urlopen_read : Request -> transport_outcome.
Variable json_loads : string -> option pyval.

Lemma get_access_run article_ids product_key s r :
  let l := fresh (dom (store s)) in
  let p := access_params (self s) article_ids product_key in
  let url := api_root (self s) ++ "/access" in
  let s' := absorb_tokens r (signed_state sign_and_encode l p url "GET" s) in
  fetch urlopen_read json_loads (issued_request sign_and_encode p url "GET" s)
    = Ok (PDict r) ->
  get_access sign_and_encode urlopen_read json_loads article_ids product_key s
  = match r !! "status" with
    | Some status =>
        if in_strs status allowed_statuses then (Ok (PDict r), s')
        else (Raise (Exception [status]), s')
    | None => (Raise (KeyError "status"), s')
    end.
Proof.
  intros l p url s' Hfetch. unfold get_access, _access_url.
  cbv [bind gets ret]. rewrite new_dict_run; cbv beta iota.
  rewrite product_step_run; cbv beta iota. rewrite self_with_dict.
  rewrite (_make_request_dict _ _ _ _ _ _ _ _ _ Hfetch); cbv beta iota.
  cbn [getitem]. fold s'.
  destruct (r !! "status") as [status|]; cbv [ret raise]; [|reflexivity].
  destruct (in_strs status allowed_statuses); reflexivity.
Qed.

Lemma get_metered_access_run article_ids threshold product_key s r :
  let l := fresh (dom (store s)) in
  let p := metered_params (self s) article_ids threshold product_key in
  let url := api_root (self s) ++ "/access" in
  let s' := absorb_tokens r (signed_state sign_and_encode l p url "GET" s) in
  fetch urlopen_read json_loads (issued_request sign_and_encode p url "GET" s)
    = Ok (PDict r) ->
  get_metered_access sign_and_encode urlopen_read json_loads article_ids threshold
    product_key s
  = match r !! "status" with
    | Some status =>
        if eq_str status "invalid_token" then (Raise InvalidTokenException, s')
        else if negb (eq_str status "ok") then (Raise (Exception []), s')
        else match r !! "articles" with
             | Some articles =>
                 (Ok (articles, default (PBool false) (r !! "exceeded"),
                      default (PList []) (r !! "subs")), s')
             | None => (Raise (KeyError "articles"), s')
             end
    | None => (Raise (KeyError "status"), s')
    end.
Proof.
  intros l p url s' Hfetch. unfold get_metered_access, _access_url.
  cbv [bind gets ret]. rewrite new_dict_run; cbv beta iota.
  rewrite product_step_run; cbv beta iota. rewrite self_with_dict.
  rewrite (_make_request_dict _ _ _ _ _ _ _ _ _ Hfetch); cbv beta iota.
  cbn [getitem get]. fold s'.
  destruct (r !! "status") as [status|]; cbv [ret raise]; [|reflexivity].
  destruct (eq_str status "invalid_token"); cbn [when]; cbv [raise ret]; [reflexivity|].
  destruct (eq_str status "ok"); cbn [when negb]; cbv [raise ret]; [|reflexivity].
  destruct (r !! "articles"); reflexivity.
Qed.

End AccessFacts.

(** ** Token lifecycle *)

Section TokenLifecycle.

Variable sign_and_encode : Z -> string -> dict -> string -> string -> dict * string.
Variable urlopen_read : Request -> transport_outcome.
Variable json_loads : string -> option pyval.

Lemma _make_request_stored url l method d s :
  store s !! l = Some d ->
  _make_request sign_and_encode urlopen_read json_loads url l method s
  = _make_request sign_and_encode urlopen_read json_loads url l method (with_dict l d s).
Proof. intros Hl. now rewrite (with_dict_same _ _ _ Hl). Qed.

Lemma _make_request_inv url l method s r :
  fst (_make_request sign_and_encode urlopen_read json_loads url l method s)
    = Ok (PDict r) ->
  ∃ d, store s !! l = Some d
       ∧ fetch urlopen_read json_loads (issued_request sign_and_encode d url method s)
         = Ok (PDict r)
       ∧ snd (_make_request sign_and_encode urlopen_read json_loads url l method s)
         = absorb_tokens r (signed_state sign_and_encode l d url method s).
Proof.
  destruct (store s !! l) as [d|] eqn:Hl.
  - rewrite (_make_request_stored _ _ _ _ _ Hl). intros Hout. exists d.
    destruct (fetch urlopen_read json_loads
                (issued_request sign_and_encode d url method s)) as [resp|e] eqn:Hf.
    + destruct resp as [| | | | str | items | items | r'];
        try (destruct (_make_request_not_dict sign_and_encode urlopen_read json_loads
                         url l method d s _ Hf) as [e He];
             [discriminate | rewrite He in Hout; discriminate Hout]).
      rewrite (_make_request_dict _ _ _ _ _ _ _ _ _ Hf) in Hout |- *.
      simpl in Hout. injection Hout as ->. auto.
    + rewrite (_make_request_raise _ _ _ _ _ _ _ _ _ Hf) in Hout. discriminate Hout.
  - rewrite (_make_request_dangling _ _ _ _ _ _ _ Hl). discriminate.
Qed.

Lemma status_invalid_token (r : dict) :
  eq_str (default PNone (r !! "status")) "invalid_token" = true
  <-> r !! "status" = Some (PStr "invalid_token").
Proof.
  rewrite eq_str_true. destruct (r !! "status") as [v|]; simpl.
  - split; [now intros -> | now intros [= ->]].
  - split; discriminate.
Qed.

(** C1 (as amended): when [_make_request] has processed a response map
    [r], the stored token is absent if [r]'s status is [invalid_token]
    (whether or not [r] carries [new_token]); otherwise it equals
    [r['new_token']] if [r] has that field, and is unchanged if not. *)
Theorem token_lifecycle url params method s r :
  fst (_make_request sign_and_encode urlopen_read json_loads url params method s)
    = Ok (PDict r) ->
  let stored :=
    lptoken (self (snd (_make_request sign_and_encode urlopen_read json_loads
                          url params method s))) in
  (r !! "status" = Some (PStr "invalid_token") -> stored = PNone)
  ∧ (r !! "status" ≠ Some (PStr "invalid_token") ->
     ∀ token, r !! "new_token" = Some token -> stored = token)
  ∧ (r !! "status" ≠ Some (PStr "invalid_token") ->
     r !! "new_token" = None -> stored = lptoken (self s)).
Proof.
  intros Hout stored. subst stored.
  destruct (_make_request_inv _ _ _ _ _ Hout) as (d & _ & _ & ->).
  rewrite lptoken_absorb_tokens. unfold token_after.
  destruct (eq_str (default PNone (r !! "status")) "invalid_token") eqn:Hst.
  - apply status_invalid_token in Hst. split; [|split]; [reflexivity | |]; intros Hne; congruence.
  - assert (Hne : r !! "status" ≠ Some (PStr "invalid_token")).
    { intros H. apply status_invalid_token in H. congruence. }
    split; [|split].
    + congruence.
    + intros _ token ->. reflexivity.
    + intros _ ->. reflexivity.
Qed.

End TokenLifecycle.

Lemma token_lifecycle_witness :
  lptoken (self (snd (_make_request Demo.sign_and_encode
                        (Demo.urlopen_read (Returned "body"))
                        (Demo.json_loads (PDict Demo.response_both))
                        "https://api.laterpay.net/access" 1%positive "GET"
                        Demo.state_with_params))) = PNone.
Proof.
  exact (proj1 (token_lifecycle Demo.sign_and_encode (Demo.urlopen_read (Returned "body"))
                  (Demo.json_loads (PDict Demo.response_both))
                  "https://api.laterpay.net/access" 1%positive "GET"
                  Demo.state_with_params Demo.response_both eq_refl) eq_refl).
Defined.

(** C1, as stated, fails: a response that carries [new_token] and reports
    [invalid_token] leaves the stored token absent, not equal to
    [r['new_token']]. *)
Lemma token_cleared_despite_new_token :
  let out := _make_request Demo.sign_and_encode (Demo.urlopen_read (Returned "body"))
               (Demo.json_loads (PDict Demo.response_both))
               "https://api.laterpay.net/access" 1%positive "GET"
               Demo.state_with_params in
  fst out = Ok (PDict Demo.response_both)
  ∧ Demo.response_both !! "new_token" = Some (PStr "fresh-token")
  ∧ lptoken (self (snd out)) ≠ PStr "fresh-token".
Proof. repeat split. discriminate. Qed.

(** ** Transport failures *)

Section Transport.

Variable sign_and_encode : Z -> string -> dict -> string -> string -> dict * string.
Variable urlopen_read : Request -> transport_outcome.
Variable json_loads : string -> option pyval.

(** C5 (as amended): for the request [_make_request] issues, a URL error
    of the transport yields the response map [{status: connection_error}],
    any other exception yields [{status: unexpected error}] (with a space),
    and otherwise the response map decoded from the body is returned. *)
Theorem transport_failures_become_responses url params method d s :
  store s !! params = Some d ->
  let req := issued_request sign_and_encode d url method s in
  let out := fst (_make_request sign_and_encode urlopen_read json_loads
                    url params method s) in
  (∀ reason, urlopen_read req = RaisedURLError reason ->
     out = Ok (PDict (<["status" := PStr "connection_error"]> ∅)))
  ∧ (urlopen_read req = RaisedOther ->
     out = Ok (PDict (<["status" := PStr "unexpected error"]> ∅)))
  ∧ (∀ response r, urlopen_read req = Returned response ->
     json_loads response = Some (PDict r) -> out = Ok (PDict r)).
Proof.
  intros Hl req out. subst out. rewrite (_make_request_stored _ _ _ _ _ _ _ _ Hl).
  split; [|split].
  - intros reason Hreq.
    rewrite (_make_request_dict sign_and_encode urlopen_read json_loads url params method d s
               (<["status" := PStr "connection_error"]> ∅)); [reflexivity|].
    unfold fetch. fold req. now rewrite Hreq.
  - intros Hreq.
    rewrite (_make_request_dict sign_and_encode urlopen_read json_loads url params method d s
               (<["status" := PStr "unexpected error"]> ∅)); [reflexivity|].
    unfold fetch. fold req. now rewrite Hreq.
  - intros response r Hreq Hjson.
    rewrite (_make_request_dict sign_and_encode urlopen_read json_loads url params method d s r);
      [reflexivity|].
    unfold fetch. fold req. now rewrite Hreq, Hjson.
Qed.

End Transport.

Lemma transport_failures_become_responses_witness :
  fst (_make_request Demo.sign_and_encode
         (Demo.urlopen_read (RaisedURLError (PStr "timed out")))
         (Demo.json_loads PNone)
         "https://api.laterpay.net/access" 1%positive "GET" Demo.state_with_params)
  = Ok (PDict (<["status" := PStr "connection_error"]> ∅)).
Proof.
  refine (proj1 (transport_failures_become_responses Demo.sign_and_encode
                   (Demo.urlopen_read (RaisedURLError (PStr "timed out")))
                   (Demo.json_loads PNone)
                   "https://api.laterpay.net/access" 1%positive "GET"
                   Demo.request_params Demo.state_with_params _) (PStr "timed out") _);
    reflexivity.
Defined.

(** C5, as stated, fails: the status of the response synthesised for an
    unexpected exception is ["unexpected error"], not
    ["unexpected_error"]. *)
Lemma unexpected_error_status_has_space :
  ∃ r, fst (_make_request Demo.sign_and_encode (Demo.urlopen_read RaisedOther)
              (Demo.json_loads PNone)
              "https://api.laterpay.net/access" 1%positive "GET" Demo.state_with_params)
       = Ok (PDict r)
       ∧ r !! "status" = Some (PStr "unexpected error")
       ∧ r !! "status" ≠ Some (PStr "unexpected_error").
Proof. eexists. repeat split. discriminate. Qed.

(** ** Access queries *)

Section Access.

Variable sign_and_encode : Z -> string -> dict -> string -> string -> dict * string.
Variable urlopen_read : Request -> transport_outcome.
Variable json_loads : string -> option pyval.

(** C3: when the transport produces the response map [r] for the request
    of [get_access], the call returns [r] itself if [r]'s status is one of
    [ok], [invalid_token], [connection_error], and raises a generic
    exception carrying the status otherwise; so it raises that exception
    exactly when the status is not on the list. *)
Theorem get_access_status_policy article_ids product_key s r status :
  fetch urlopen_read json_loads
    (issued_request sign_and_encode (access_params (self s) article_ids product_key)
       (api_root (self s) ++ "/access") "GET" s) = Ok (PDict r) ->
  r !! "status" = Some status ->
  let out := fst (get_access sign_and_encode urlopen_read json_loads
                    article_ids product_key s) in
  let allowed := status = PStr "ok" ∨ status = PStr "invalid_token"
                 ∨ status = PStr "connection_error" in
  (allowed -> out = Ok (PDict r))
  ∧ (¬ allowed -> out = Raise (Exception [status]))
  ∧ (out = Raise (Exception [status]) <-> ¬ allowed).
Proof.
  intros Hfetch Hstatus out allowed. subst out.
  rewrite (get_access_run _ _ _ _ _ _ _ Hfetch), Hstatus.
  pose proof (in_allowed_statuses status) as Hin. fold allowed in Hin.
  destruct (in_strs status allowed_statuses); simpl.
  - assert (allowed) by now apply Hin.
    split; [|split]; [reflexivity | tauto | split; [discriminate | tauto]].
  - assert (¬ allowed) by (intros Ha; apply Hin in Ha; discriminate).
    split; [|split]; [tauto | reflexivity | tauto].
Qed.

(** C4: [get_metered_access] signs a parameter map whose [article_id] is
    the one-element list [[x]] when it is given a single id [x]; when the
    transport produces the response map [r], it raises
    [InvalidTokenException] if [r]'s status is [invalid_token], a generic
    exception if the status is anything else than [ok], and for [ok] it
    returns [r['articles']], [r]'s [exceeded] (default [False]) and [r]'s
    [subs] (default the empty list). *)
Theorem get_metered_access_policy article_ids threshold product_key s r status :
  fetch urlopen_read json_loads
    (issued_request sign_and_encode
       (metered_params (self s) article_ids threshold product_key)
       (api_root (self s) ++ "/access") "GET" s) = Ok (PDict r) ->
  r !! "status" = Some status ->
  let run := get_metered_access sign_and_encode urlopen_read json_loads
               article_ids threshold product_key s in
  (∃ call, signer_calls (snd run) = (signer_calls s ++ [call])%list
           ∧ sc_params call !! "article_id"
             = Some (if isinstance_list_tuple article_ids then article_ids
                     else PList [article_ids]))
  ∧ (status = PStr "invalid_token" -> fst run = Raise InvalidTokenException)
  ∧ (status ≠ PStr "invalid_token" -> status ≠ PStr "ok" ->
     fst run = Raise (Exception []))
  ∧ (status = PStr "ok" -> ∀ articles, r !! "articles" = Some articles ->
     fst run = Ok (articles, default (PBool false) (r !! "exceeded"),
                   default (PList []) (r !! "subs"))).
Proof.
  intros Hfetch Hstatus run. subst run.
  rewrite (get_metered_access_run _ _ _ _ _ _ _ _ Hfetch), Hstatus.
  split; [|split; [|split]].
  - eexists. split.
    + destruct (eq_str status "invalid_token"); [|destruct (negb _); [|destruct (r !! "articles")]];
        simpl; rewrite signer_calls_absorb_tokens; reflexivity.
    + simpl. unfold metered_params, with_product, normalize_ids.
      destruct product_key; [rewrite lookup_insert_ne by discriminate|];
        (rewrite lookup_insert_ne by discriminate);
        (rewrite lookup_insert_ne by discriminate);
        rewrite lookup_insert_eq; now destruct (isinstance_list_tuple article_ids).
  - intros ->. reflexivity.
  - intros Hinv Hok.
    destruct (eq_str status "invalid_token") eqn:E1; [now apply eq_str_true in E1|].
    destruct (eq_str status "ok") eqn:E2; [now apply eq_str_true in E2|].
    reflexivity.
  - intros -> articles ->. reflexivity.
Qed.

End Access.

Lemma get_access_status_policy_witness :
  fst (get_access Demo.sign_and_encode (Demo.urlopen_read (Returned "body"))
         (Demo.json_loads (PDict Demo.response_ok))
         (PList [PStr "abc123"]) None Demo.state0)
  = Ok (PDict Demo.response_ok)
  ∧ fst (get_access Demo.sign_and_encode (Demo.urlopen_read (Returned "body"))
           (Demo.json_loads (PDict Demo.response_teapot))
           (PList [PStr "x"]) None Demo.state0)
    = Raise (Exception [PStr "teapot"]).
Proof.
  split.
  - refine (proj1 (get_access_status_policy Demo.sign_and_encode
                     (Demo.urlopen_read (Returned "body"))
                     (Demo.json_loads (PDict Demo.response_ok))
                     (PList [PStr "abc123"]) None Demo.state0
                     Demo.response_ok (PStr "ok") _ _) _);
      [reflexivity | reflexivity | now left].
  - refine (proj1 (proj2 (get_access_status_policy Demo.sign_and_encode
                            (Demo.urlopen_read (Returned "body"))
                            (Demo.json_loads (PDict Demo.response_teapot))
                            (PList [PStr "x"]) None Demo.state0
                            Demo.response_teapot (PStr "teapot") _ _)) _);
      [reflexivity | reflexivity | intros [H|[H|H]]; discriminate H].
Defined.

Lemma get_metered_access_policy_witness :
  fst (get_metered_access Demo.sign_and_encode (Demo.urlopen_read (Returned "body"))
         (Demo.json_loads (PDict Demo.response_metered))
         (PStr "a1") (PInt 3) None Demo.state0)
  = Ok (PDict (<["a1" := PBool false]> ∅), PBool true, PList []).
Proof.
  refine (proj2 (proj2 (proj2
            (get_metered_access_policy Demo.sign_and_encode
               (Demo.urlopen_read (Returned "body"))
               (Demo.json_loads (PDict Demo.response_metered))
               (PStr "a1") (PInt 3) None Demo.state0
               Demo.response_metered (PStr "ok") _ _))) _
            (PDict (<["a1" := PBool false]> ∅)) _);
    reflexivity.
Defined.

(** ** URL builders *)

Section Builders.

Variable sign_and_encode : Z -> string -> dict -> string -> string -> dict * string.
Variable quote_plus : string -> string.
Variable random_next : N -> nat * N.

Lemma _get_web_url_signed item page_type product_key dialog use_jsevents skip tref
    consumable expires_at d0 s :
  store s !! data item = Some d0 ->
  tref_rejected tref = false ->
  signed_by sign_and_encode s
    (_get_web_url sign_and_encode quote_plus item page_type product_key dialog
       use_jsevents skip tref consumable expires_at s)
    (web_base_url (self s) page_type product_key dialog)
    (dialog_api quote_plus (self s))
    (web_params d0 use_jsevents skip tref consumable expires_at).
Proof.
  intros Hd0 Htref. unfold signed_by.
  rewrite (_get_web_url_run sign_and_encode quote_plus item page_type product_key dialog
             use_jsevents skip tref consumable expires_at d0 s Hd0 Htref).
  split; reflexivity.
Qed.

(** C2 (as amended): the token bootstrap, identify, controls-links,
    controls-balance, buy and add builders assemble a parameter map, call
    the signer on it exactly once and return the signed URL, base URL then
    question mark then the signer's output (for buy and add, wrapped as the
    percent-encoded [url] parameter of the dialog-api URL).  The login,
    signup and logout dialog builders do not call the signer: they return
    the dialog-api URL that wraps an account dialog URL made of [next], an
    optional [jsevents=1] and [cp], and leave the state as it was. *)
Theorem builders_sign_except_account_dialogs s :
  (∀ return_to, ∃ d,
     signed_by sign_and_encode s (get_gettoken_redirect sign_and_encode return_to s)
       (api_root (self s) ++ "/gettoken") (fun url => url) d)
  ∧ (∀ identify_callback, ∃ d,
       signed_by sign_and_encode s (get_identify_url sign_and_encode identify_callback s)
         (api_root (self s) ++ "/identify") (fun url => url) d)
  ∧ (∀ next_url css_url forcelang show_greeting show_long_greeting show_login
       show_signup show_long_signup use_jsevents, ∃ d,
       signed_by sign_and_encode s
         (get_controls_links_url sign_and_encode random_next next_url css_url forcelang
            show_greeting show_long_greeting show_login show_signup show_long_signup
            use_jsevents s)
         (web_root (self s) ++ "/controls/links") (fun url => url) d)
  ∧ (∀ forcelang, ∃ d,
       signed_by sign_and_encode s
         (get_controls_balance_url sign_and_encode random_next forcelang s)
         (web_root (self s) ++ "/controls/balance") (fun url => url) d)
  ∧ (∀ page item product_key dialog use_jsevents skip tref consumable expires_at d0,
       store s !! data item = Some d0 ->
       tref_rejected tref = false ->
       signed_by sign_and_encode s
         (shop_url sign_and_encode quote_plus page item product_key dialog use_jsevents
            skip tref consumable expires_at s)
         (web_base_url (self s) (page_type_of page) product_key dialog)
         (dialog_api quote_plus (self s))
         (web_params d0 use_jsevents skip tref consumable expires_at))
  ∧ (∀ dialog next_url use_jsevents,
       account_dialog_url quote_plus dialog next_url use_jsevents s
       = (Ok (dialog_api quote_plus (self s)
                (web_root (self s) ++ "/account/dialog/" ++ dialog_name dialog
                 ++ "?next=" ++ quote_plus next_url
                 ++ (if use_jsevents then "&jsevents=1" else "")
                 ++ "&cp=" ++ cp_key (self s))), s)).
Proof.
  repeat apply conj.
  - intros. eexists. apply get_gettoken_redirect_signed.
  - intros. eexists. apply get_identify_url_signed.
  - intros. apply get_controls_links_url_signed.
  - intros. apply get_controls_balance_url_signed.
  - intros page item product_key dialog use_jsevents skip tref consumable expires_at
      d0 Hd0 Htref.
    destruct page; now apply _get_web_url_signed.
  - intros dialog next_url use_jsevents. destruct dialog; reflexivity.
Qed.

End Builders.

Lemma web_params_tref d0 use_jsevents skip tref consumable expires_at :
  web_params d0 use_jsevents skip tref consumable expires_at !! "tref"
  = if truthy tref then Some (PStr (default "" tref)) else d0 !! "tref".
Proof.
  unfold web_params.
  destruct skip; [rewrite lookup_insert_ne by discriminate|];
    (destruct (truthy tref); [now rewrite lookup_insert_eq|]);
    (destruct (is_not_None expires_at); [rewrite lookup_insert_ne by discriminate|]);
    (destruct consumable; [rewrite lookup_insert_ne by discriminate|]);
    (destruct use_jsevents; [rewrite lookup_insert_ne by discriminate|]);
    reflexivity.
Qed.

Section WebUrl.

Variable sign_and_encode : Z -> string -> dict -> string -> string -> dict * string.
Variable quote_plus : string -> string.

(** Whatever [_get_web_url] does, the dictionaries allocated before the
    call keep their contents. *)
Lemma _get_web_url_frame item page_type product_key dialog use_jsevents skip tref
    consumable expires_at s l :
  l ∈ dom (store s) ->
  store (snd (_get_web_url sign_and_encode quote_plus item page_type product_key dialog
                use_jsevents skip tref consumable expires_at s)) !! l
  = store s !! l.
Proof.
  intros Hl.
  assert (Hne : fresh (dom (store s)) ≠ l) by (intros <-; now apply is_fresh in Hl).
  destruct (store s !! data item) as [d0|] eqn:Hd0.
  - destruct (tref_rejected tref) eqn:Htref.
    + destruct (_get_web_url_rejected sign_and_encode quote_plus item page_type
                  product_key dialog use_jsevents skip tref consumable expires_at
                  d0 s Hd0 Htref) as [d ->].
      now apply lookup_with_dict_ne.
    + rewrite (_get_web_url_run sign_and_encode quote_plus item page_type product_key
                 dialog use_jsevents skip tref consumable expires_at d0 s Hd0 Htref).
      simpl. now apply lookup_insert_ne.
  - now rewrite _get_web_url_dangling.
Qed.

Lemma _get_web_url_item_unchanged item page_type product_key dialog use_jsevents skip
    tref consumable expires_at s :
  store (snd (_get_web_url sign_and_encode quote_plus item page_type product_key dialog
                use_jsevents skip tref consumable expires_at s)) !! data item
  = store s !! data item.
Proof.
  destruct (store s !! data item) as [d0|] eqn:Hd0.
  - rewrite <- Hd0. apply _get_web_url_frame, elem_of_dom. now rewrite Hd0.
  - rewrite _get_web_url_dangling by exact Hd0. exact Hd0.
Qed.

Lemma shop_url_web page item product_key dialog use_jsevents skip tref consumable
    expires_at s :
  shop_url sign_and_encode quote_plus page item product_key dialog use_jsevents skip
    tref consumable expires_at s
  = _get_web_url sign_and_encode quote_plus item (page_type_of page) product_key dialog
      use_jsevents skip tref consumable expires_at s.
Proof. now destruct page. Qed.

(** C9: whatever the options, and whether the call returns or raises,
    [get_buy_url] and [get_add_url] leave the item definition's parameter
    map, and every other dictionary that existed before the call, as they
    were; the options are added to a copy, so that a second build from the
    same item definition starts again from the original map. *)
Theorem item_definition_data_unchanged page item product_key dialog use_jsevents skip
    tref consumable expires_at s :
  let s' := snd (shop_url sign_and_encode quote_plus page item product_key dialog
                   use_jsevents skip tref consumable expires_at s) in
  store s' !! data item = store s !! data item
  ∧ (∀ l, l ∈ dom (store s) -> store s' !! l = store s !! l)
  ∧ (∀ d0 page2 product_key2 dialog2 use_jsevents2 skip2 tref2 consumable2 expires_at2,
       store s !! data item = Some d0 ->
       tref_rejected tref2 = false ->
       ∃ call,
         signer_calls (snd (shop_url sign_and_encode quote_plus page2 item product_key2
                              dialog2 use_jsevents2 skip2 tref2 consumable2
                              expires_at2 s'))
         = (signer_calls s' ++ [call])%list
         ∧ sc_params call
           = web_params d0 use_jsevents2 skip2 tref2 consumable2 expires_at2).
Proof.
  intros s'. subst s'. rewrite shop_url_web.
  split; [apply _get_web_url_item_unchanged|].
  split; [intros l Hl; now apply _get_web_url_frame|].
  intros d0 page2 product_key2 dialog2 use_jsevents2 skip2 tref2 consumable2 expires_at2
    Hd0 Htref2.
  rewrite <- (_get_web_url_item_unchanged item (page_type_of page) product_key dialog
                use_jsevents skip tref consumable expires_at s) in Hd0.
  rewrite shop_url_web.
  rewrite (_get_web_url_run sign_and_encode quote_plus item (page_type_of page2)
             product_key2 dialog2 use_jsevents2 skip2 tref2 consumable2 expires_at2
             d0 _ Hd0 Htref2).
  eexists; split; reflexivity.
Qed.

(** C7 (as amended): for an item definition whose map is in the store, a
    non-empty transaction reference shorter than six characters makes
    [get_buy_url] and [get_add_url] raise [APIException] without any call to
    the signer; a reference of six characters or more is signed as the
    [tref] parameter; with no reference, or the empty string, the URL is
    built and no [tref] parameter is added. *)
Theorem transaction_reference_check page item product_key dialog use_jsevents skip
    tref consumable expires_at d0 s :
  store s !! data item = Some d0 ->
  let out := shop_url sign_and_encode quote_plus page item product_key dialog
               use_jsevents skip tref consumable expires_at s in
  (∀ t, tref = Some t -> t ≠ "" -> (String.length t < 6)%nat ->
     fst out = Raise (APIException tref_message)
     ∧ signer_calls (snd out) = signer_calls s)
  ∧ (∀ t, tref = Some t -> (6 <= String.length t)%nat ->
       ∃ url call, fst out = Ok url
                   ∧ signer_calls (snd out) = (signer_calls s ++ [call])%list
                   ∧ sc_params call !! "tref" = Some (PStr t))
  ∧ (tref = None ∨ tref = Some "" ->
       ∃ url call, fst out = Ok url
                   ∧ signer_calls (snd out) = (signer_calls s ++ [call])%list
                   ∧ sc_params call !! "tref" = d0 !! "tref").
Proof.
  intros Hd0 out. subst out. rewrite shop_url_web.
  set (page_type := page_type_of page). split; [|split].
  - intros t -> Hne Hlen.
    assert (Hrej : tref_rejected (Some t) = true).
    { unfold tref_rejected. destruct t as [|c t]; [congruence|]. simpl truthy.
      simpl default. now apply Nat.ltb_lt in Hlen as ->. }
    destruct (_get_web_url_rejected sign_and_encode quote_plus item page_type
                product_key dialog use_jsevents skip (Some t) consumable expires_at
                d0 s Hd0 Hrej) as [d ->].
    split; reflexivity.
  - intros t -> Hlen.
    assert (Hrej : tref_rejected (Some t) = false).
    { unfold tref_rejected. simpl default.
      apply Nat.ltb_ge in Hlen as ->. apply andb_false_r. }
    rewrite (_get_web_url_run sign_and_encode quote_plus item page_type product_key
               dialog use_jsevents skip (Some t) consumable expires_at d0 s Hd0 Hrej).
    eexists _, _. split; [reflexivity|]. split; [reflexivity|].
    simpl sc_params. rewrite web_params_tref.
    destruct t as [|c t]; [simpl in Hlen; lia | reflexivity].
  - intros Hnone.
    assert (Htruthy : truthy tref = false) by (destruct Hnone as [->| ->]; reflexivity).
    assert (Hrej : tref_rejected tref = false)
      by (unfold tref_rejected; now rewrite Htruthy).
    rewrite (_get_web_url_run sign_and_encode quote_plus item page_type product_key
               dialog use_jsevents skip tref consumable expires_at d0 s Hd0 Hrej).
    eexists _, _. split; [reflexivity|]. split; [reflexivity|].
    simpl sc_params. now rewrite web_params_tref, Htruthy.
Qed.

End WebUrl.

(** ** The builders on a concrete client *)

(** The demonstration state is the one the constructor leaves behind. *)
Example item_definition_constructed :
  ItemDefinition_init (PStr "a1") "EUR2" "DE19" (PStr "http://example.com/a1")
    (PStr "Article") PNone PNone Demo.state0
  = (Ok Demo.item, Demo.state_with_item).
Proof. reflexivity. Qed.

Lemma builders_sign_except_account_dialogs_witness :
  signed_by Demo.sign_and_encode Demo.state_with_item
    (get_buy_url Demo.sign_and_encode Demo.quote_plus Demo.item None true false false
       (Some "order-0001") false PNone Demo.state_with_item)
    "https://web.laterpay.net/dialog/buy"
    (dialog_api Demo.quote_plus Demo.client0)
    (<["tref" := PStr "order-0001"]> Demo.item_dict).
Proof.
  refine (proj1 (proj2 (proj2 (proj2 (proj2
            (builders_sign_except_account_dialogs Demo.sign_and_encode Demo.quote_plus
               Demo.random_next Demo.state_with_item)))))
            Buy Demo.item None true false false (Some "order-0001") false PNone
            Demo.item_dict _ _).
  - reflexivity.
  - reflexivity.
Defined.

(** C2, as stated, fails for the account dialogs: [get_login_dialog_url]
    makes no call to the signer, and the URL it returns is not a signed
    one. *)
Lemma login_dialog_url_not_signed :
  let out := get_login_dialog_url Demo.quote_plus "http://example.com/a1" false
               Demo.state0 in
  fst out
  = Ok ("https://web.laterpay.net/dialog-api?url="
        ++ "https%3A%2F%2Fweb.laterpay.net%2Faccount%2Fdialog%2Flogin"
        ++ "%3Fnext%3Dhttp%253A%252F%252Fexample.com%252Fa1%26cp%3Dcp-key")
  ∧ signer_calls (snd out) = []
  ∧ ¬ ∃ base wrap d, signed_by Demo.sign_and_encode Demo.state0 out base wrap d.
Proof.
  split; [reflexivity|]. split; [reflexivity|].
  intros (base & wrap & d & Hcalls & _). discriminate Hcalls.
Qed.

Lemma transaction_reference_check_witness :
  (fst (get_buy_url Demo.sign_and_encode Demo.quote_plus Demo.item None true false false
          (Some "abc") false PNone Demo.state_with_item)
   = Raise (APIException tref_message)
   ∧ signer_calls (snd (get_buy_url Demo.sign_and_encode Demo.quote_plus Demo.item None
                          true false false (Some "abc") false PNone
                          Demo.state_with_item))
     = signer_calls Demo.state_with_item)
  ∧ ∃ url call,
      fst (get_add_url Demo.sign_and_encode Demo.quote_plus Demo.item None true false
             false (Some "order-0001") false PNone Demo.state_with_item) = Ok url
      ∧ signer_calls (snd (get_add_url Demo.sign_and_encode Demo.quote_plus Demo.item
                             None true false false (Some "order-0001") false PNone
                             Demo.state_with_item))
        = (signer_calls Demo.state_with_item ++ [call])%list
      ∧ sc_params call !! "tref" = Some (PStr "order-0001").
Proof.
  split.
  - refine (proj1 (transaction_reference_check Demo.sign_and_encode Demo.quote_plus
                     Buy Demo.item None true false false (Some "abc") false PNone
                     Demo.item_dict Demo.state_with_item _) "abc" _ _ _).
    + reflexivity.
    + reflexivity.
    + discriminate.
    + simpl. lia.
  - refine (proj1 (proj2 (transaction_reference_check Demo.sign_and_encode Demo.quote_plus
                     Add Demo.item None true false false (Some "order-0001") false PNone
                     Demo.item_dict Demo.state_with_item _)) "order-0001" _ _).
    + reflexivity.
    + reflexivity.
    + simpl. lia.
Defined.

(** C7, as stated, fails for a reference of length zero: the empty string
    is shorter than six characters, yet the URL is built. *)
Lemma empty_transaction_reference_accepted :
  (String.length "" < 6)%nat
  ∧ fst (get_buy_url Demo.sign_and_encode Demo.quote_plus Demo.item None true false false
           (Some "") false PNone Demo.state_with_item)
    = Ok ("https://web.laterpay.net/dialog-api?url="
          ++ "https%3A%2F%2Fweb.laterpay.net%2Fdialog%2Fbuy"
          ++ "%3Fts%3D1400000000%26hmac%3Dsecret").
Proof. split; [simpl; lia | reflexivity]. Qed.

Lemma item_definition_data_unchanged_witness :
  ∃ call,
    signer_calls
      (snd (get_add_url Demo.sign_and_encode Demo.quote_plus Demo.item None true false
              false None false PNone
              (snd (get_buy_url Demo.sign_and_encode Demo.quote_plus Demo.item None true
                      true true (Some "order-0001") true (PInt 1500000000)
                      Demo.state_with_item))))
    = (signer_calls
         (snd (get_buy_url Demo.sign_and_encode Demo.quote_plus Demo.item None true
                 true true (Some "order-0001") true (PInt 1500000000)
                 Demo.state_with_item)) ++ [call])%list
    ∧ sc_params call = Demo.item_dict.
Proof.
  refine (proj2 (proj2 (item_definition_data_unchanged Demo.sign_and_encode
                          Demo.quote_plus Buy Demo.item None true true true
                          (Some "order-0001") true (PInt 1500000000)
                          Demo.state_with_item))
            Demo.item_dict Add None true false false None false PNone _ _);
    reflexivity.
Defined.

(** * Further properties of the module *)

(** ** [ItemDefinition]: time stamp, stored map, failure *)

Lemma isinstance_int_cases v :
  purchasedatetime_valid v = true
  <-> v = PNone ∨ (∃ z, v = PInt z) ∨ (∃ b, v = PBool b).
Proof.
  unfold purchasedatetime_valid. destruct v; simpl; split; intros H;
    try discriminate H; try reflexivity; eauto;
    destruct H as [H|[[? H]|[? H]]]; discriminate H.
Qed.

(** X1: with valid pricing and VAT strings, the constructor accepts
    [purchasedatetime] exactly when it is omitted ([None]) or an [int]
    (a [bool] included); any other value, a numeric string or a float for
    instance, raises [InvalidItemDefinition] with a message in which the
    [%s] placeholder was never filled in. *)
Theorem purchasedatetime_validation item_id pricing vat url title purchasedatetime cp s :
  (∀ price, price ∈ Str.split "," pricing → currency_prefix price) →
  (∀ v, v ∈ Str.split "," vat → vat_token_valid v = true) →
  let outcome :=
    fst (ItemDefinition_init item_id pricing vat url title purchasedatetime cp s) in
  ((∃ item, outcome = Ok item)
   ↔ purchasedatetime = PNone ∨ (∃ z, purchasedatetime = PInt z)
     ∨ (∃ b, purchasedatetime = PBool b))
  ∧ ((¬ ∃ item, outcome = Ok item) →
     outcome = Raise (InvalidItemDefinition purchasedatetime_message)
     ∧ Str.contains "purchasedatetime %s." purchasedatetime_message = true).
Proof.
  intros Hprices Hvat outcome. subst outcome.
  rewrite ItemDefinition_init_run, (all_prices_ok_find _ Hprices).
  assert (Hfind : List.find (fun v => negb (vat_token_valid v)) (Str.split "," vat) = None).
  { apply find_none_iff. intros v Hv. now rewrite (Hvat v Hv). }
  rewrite Hfind. rewrite <- isinstance_int_cases.
  destruct (purchasedatetime_valid purchasedatetime); simpl.
  - split; [split; eauto|]. intros Hno. exfalso. apply Hno. eauto.
  - split; [split; [intros [item H]; discriminate H | discriminate]|].
    intros _. split; reflexivity.
Qed.

Lemma purchasedatetime_validation_witness :
  fst (ItemDefinition_init (PStr "a1") "EUR2" "DE19" (PStr "http://example.com/a1")
         (PStr "Article") (PStr "1400000000") PNone Demo.state0)
  = Raise (InvalidItemDefinition purchasedatetime_message).
Proof.
  refine (proj1 (proj2 (purchasedatetime_validation (PStr "a1") "EUR2" "DE19"
                          (PStr "http://example.com/a1") (PStr "Article")
                          (PStr "1400000000") PNone Demo.state0 _ _) _)).
  - intros price Hin. apply price_ok_prefix.
    repeat (apply elem_of_cons in Hin as [->|Hin]); [reflexivity|inversion Hin].
  - intros v Hin.
    repeat (apply elem_of_cons in Hin as [->|Hin]); [reflexivity|inversion Hin].
  - intros [item H]. discriminate H.
Defined.

(** X2: when the constructor returns, [self.data] is a dictionary that did
    not exist before, with exactly the seven keys [article_id],
    [purchasedatetime], [pricing], [vat], [url], [title] and [cp], each bound
    to the corresponding argument; the time stamp is the clock reading when
    the argument is omitted.  The client, the signer log and every older
    dictionary are as before. *)
Theorem item_definition_stores_arguments item_id pricing vat url title
    purchasedatetime cp s item :
  fst (ItemDefinition_init item_id pricing vat url title purchasedatetime cp s)
    = Ok item →
  let s' := snd (ItemDefinition_init item_id pricing vat url title purchasedatetime
                   cp s) in
  store s !! data item = None
  ∧ (∃ d, store s' !! data item = Some d
          ∧ dom d = list_to_set ["article_id"; "purchasedatetime"; "pricing"; "vat";
                                  "url"; "title"; "cp"]
          ∧ d !! "article_id" = Some item_id
          ∧ d !! "purchasedatetime"
            = Some (if is_not_None purchasedatetime then purchasedatetime
                    else PInt (clock s))
          ∧ d !! "pricing" = Some (PStr pricing)
          ∧ d !! "vat" = Some (PStr vat)
          ∧ d !! "url" = Some url
          ∧ d !! "title" = Some title
          ∧ d !! "cp" = Some cp)
  ∧ preserves_store s s'
  ∧ self s' = self s ∧ signer_calls s' = signer_calls s.
Proof.
  intros Hok s'. subst s'. revert Hok. rewrite ItemDefinition_init_run.
  destruct (List.find _ (Str.split "," pricing)); [discriminate|].
  destruct (List.find _ (Str.split "," vat)); [discriminate|].
  destruct (purchasedatetime_valid purchasedatetime); [|discriminate].
  simpl. intros [= <-]. simpl. split; [apply fresh_unallocated|].
  split.
  - eexists. split; [apply lookup_insert_eq|].
    split.
    { unfold item_data. rewrite !dom_insert_L, dom_empty_L. simpl. set_solver. }
    unfold item_data. repeat split;
      repeat (first [rewrite lookup_insert_eq | rewrite lookup_insert_ne by discriminate]);
      reflexivity.
  - split; [|split; reflexivity].
    intros l Hl. apply lookup_insert_ne. intros <-. now apply is_fresh in Hl.
Qed.

Lemma item_definition_stores_arguments_witness :
  ∃ d, store Demo.state_with_item !! data Demo.item = Some d
       ∧ d !! "purchasedatetime" = Some (PInt 1400000000)
       ∧ d !! "cp" = Some PNone.
Proof.
  destruct (item_definition_stores_arguments (PStr "a1") "EUR2" "DE19"
              (PStr "http://example.com/a1") (PStr "Article") PNone PNone
              Demo.state0 Demo.item eq_refl)
    as (_ & (d & Hd & _ & _ & Hstamp & _ & _ & _ & _ & Hcp) & _).
  exists d. auto.
Defined.

(** X3: the constructor raises nothing but [InvalidItemDefinition], and
    when it raises the state is untouched: no dictionary is allocated for a
    rejected item. *)
Theorem item_definition_failure_is_clean item_id pricing vat url title
    purchasedatetime cp s e :
  fst (ItemDefinition_init item_id pricing vat url title purchasedatetime cp s)
    = Raise e →
  (∃ message, e = InvalidItemDefinition message)
  ∧ snd (ItemDefinition_init item_id pricing vat url title purchasedatetime cp s) = s.
Proof.
  rewrite ItemDefinition_init_run.
  destruct (List.find _ (Str.split "," pricing));
    [simpl; intros [= <-]; eauto|].
  destruct (List.find _ (Str.split "," vat));
    [simpl; intros [= <-]; eauto|].
  destruct (purchasedatetime_valid purchasedatetime); simpl.
  - discriminate.
  - intros [= <-]. eauto.
Qed.

Lemma item_definition_failure_is_clean_witness :
  snd (ItemDefinition_init (PStr "a1") "eur2" "DE19" (PStr "http://example.com/a1")
         (PStr "Article") PNone PNone Demo.state_with_item)
  = Demo.state_with_item.
Proof.
  refine (proj2 (item_definition_failure_is_clean (PStr "a1") "eur2" "DE19"
                   (PStr "http://example.com/a1") (PStr "Article") PNone PNone
                   Demo.state_with_item
                   (InvalidItemDefinition "Pricing is not valid: eur2") _)).
  reflexivity.
Defined.

Lemma find_some_of_elem {A} (p : A -> bool) xs x :
  x ∈ xs -> p x = true -> ∃ y, List.find p xs = Some y.
Proof.
  intros Hin Hp. destruct (List.find p xs) as [y|] eqn:Hf; [eauto|].
  pose proof (proj1 (find_none_iff p xs) Hf x Hin). congruence.
Qed.

Lemma split_trailing_separator_last sep p :
  ∃ tok toks, Str.split sep (p ++ String sep EmptyString)
              = (tok :: toks ++ [EmptyString])%list.
Proof.
  induction p as [|c p (tok & toks & IH)]; simpl.
  - rewrite Ascii.eqb_refl. now exists EmptyString, [].
  - rewrite IH. destruct (Ascii.eqb c sep).
    + now exists EmptyString, (tok :: toks).
    + now exists (String c tok), toks.
Qed.

Lemma split_trailing_separator sep p :
  EmptyString ∈ Str.split sep (p ++ String sep EmptyString).
Proof.
  destruct (split_trailing_separator_last sep p) as (tok & toks & ->).
  apply list_elem_of_further, elem_of_app. right. apply list_elem_of_here.
Qed.

(** X4: an empty token is never valid: a pricing string that is empty or
    ends with a comma is rejected with the pricing message, and, the
    pricing being valid, so is a VAT string that is empty or ends with a
    comma. *)
Theorem empty_token_rejected item_id url title purchasedatetime cp s :
  (∀ pricing vat,
     pricing = "" ∨ (∃ p, pricing = p ++ ",") →
     fst (ItemDefinition_init item_id pricing vat url title purchasedatetime cp s)
     = Raise (InvalidItemDefinition (pricing_message pricing)))
  ∧ (∀ pricing vat,
       (∀ price, price ∈ Str.split "," pricing → currency_prefix price) →
       vat = "" ∨ (∃ v, vat = v ++ ",") →
       ∃ message,
         fst (ItemDefinition_init item_id pricing vat url title purchasedatetime cp s)
         = Raise (InvalidItemDefinition message)).
Proof.
  assert (Hempty : ∀ str, str = "" ∨ (∃ p, str = p ++ ",") → "" ∈ Str.split "," str).
  { intros str [->|[p ->]]; [apply list_elem_of_here | apply split_trailing_separator]. }
  split.
  - intros pricing vat Hp. rewrite ItemDefinition_init_run.
    destruct (find_some_of_elem (fun p => negb (price_ok p)) _ "" (Hempty _ Hp) eq_refl)
      as [y ->].
    reflexivity.
  - intros pricing vat Hprices Hv. rewrite ItemDefinition_init_run.
    rewrite (all_prices_ok_find _ Hprices).
    destruct (find_some_of_elem (fun v => negb (vat_token_valid v)) _ "" (Hempty _ Hv)
                eq_refl) as [y ->].
    simpl. eauto.
Qed.

Lemma empty_token_rejected_witness :
  fst (ItemDefinition_init (PStr "a1") "EUR2," "DE19" (PStr "http://example.com/a1")
         (PStr "Article") PNone PNone Demo.state0)
  = Raise (InvalidItemDefinition "Pricing is not valid: EUR2,").
Proof.
  refine (proj1 (empty_token_rejected (PStr "a1") (PStr "http://example.com/a1")
                   (PStr "Article") PNone PNone Demo.state0) "EUR2," "DE19" _).
  right. exists "EUR2". reflexivity.
Defined.

(** ** [_make_request]: everything it can do *)

Section RequestOutcome.

Variable sign_and_encode : Z -> string -> dict -> string -> string -> dict * string.
Variable urlopen_read : Request -> transport_outcome.
Variable json_loads : string -> option pyval.

Lemma _make_request_not_dict_error url l method d s resp :
  fetch urlopen_read json_loads (issued_request sign_and_encode d url method s) = Ok resp ->
  (∀ r, resp ≠ PDict r) ->
  _make_request sign_and_encode urlopen_read json_loads url l method (with_dict l d s)
  = (Raise (non_dict_error resp), signed_state sign_and_encode l d url method s).
Proof.
  intros Hfetch Hnd. unfold _make_request. cbv [bind]. rewrite sign_run. cbv beta iota.
  unfold issued_request in Hfetch. unfold lift. rewrite Hfetch. cbv beta iota.
  destruct resp as [| | | | str | items | items | r];
    cbn [contains_key getitem get ret raise when non_dict_error];
    try reflexivity.
  - destruct (Str.contains "new_token" str); reflexivity.
  - destruct (existsb _ items); reflexivity.
  - destruct (existsb _ items); reflexivity.
  - now destruct (Hnd r).
Qed.

(** The outcome and final state of [_make_request] on a stored map. *)
Lemma _make_request_outcome url l method d s :
  store s !! l = Some d ->
  let fetched := fetch urlopen_read json_loads
                   (issued_request sign_and_encode d url method s) in
  _make_request sign_and_encode urlopen_read json_loads url l method s
  = (match fetched with
     | Ok (PDict r) => Ok (PDict r)
     | Ok resp => Raise (non_dict_error resp)
     | Raise e => Raise e
     end,
     request_state sign_and_encode l d url method fetched s).
Proof.
  intros Hl fetched.
  rewrite (_make_request_stored sign_and_encode urlopen_read json_loads _ _ _ _ _ Hl).
  subst fetched.
  destruct (fetch urlopen_read json_loads _) as [resp|e] eqn:Hf.
  - destruct resp as [| | | | str | items | items | r];
      try (rewrite (_make_request_not_dict_error _ _ _ _ _ _ Hf) by discriminate;
           reflexivity).
    now rewrite (_make_request_dict _ _ _ _ _ _ _ _ _ Hf).
  - now rewrite (_make_request_raise _ _ _ _ _ _ _ _ _ Hf).
Qed.

Lemma fetch_raises_only_ValueError req e :
  fetch urlopen_read json_loads req = Raise e -> e = ValueError.
Proof.
  unfold fetch. destruct (urlopen_read req) as [body| |]; try discriminate.
  destruct (json_loads body); [discriminate|]. now intros [= <-].
Qed.

Lemma lptoken_request_state l d url method fetched s :
  lptoken (self (request_state sign_and_encode l d url method fetched s))
  = match fetched with
    | Ok (PDict r) => token_after r (lptoken (self s))
    | _ => lptoken (self s)
    end.
Proof.
  unfold request_state.
  destruct fetched as [[| | | | | | | r]|]; try reflexivity.
  now rewrite lptoken_absorb_tokens.
Qed.

Lemma signer_calls_request_state l d url method fetched s :
  signer_calls (request_state sign_and_encode l d url method fetched s)
  = (signer_calls s ++ [mkSignCall (shared_secret (self s)) d url method])%list.
Proof.
  unfold request_state.
  destruct fetched as [[| | | | | | | r]|]; try reflexivity.
  now rewrite signer_calls_absorb_tokens.
Qed.

Lemma store_request_state l d url method fetched s :
  store (request_state sign_and_encode l d url method fetched s)
  = <[l := fst (sign_and_encode (clock s) (shared_secret (self s)) d url method)]>
      (store s).
Proof.
  unfold request_state.
  destruct fetched as [[| | | | | | | r]|]; try reflexivity.
  now rewrite store_absorb_tokens.
Qed.

Lemma config_request_state l d url method fetched s :
  let s' := request_state sign_and_encode l d url method fetched s in
  cp_key (self s') = cp_key (self s)
  ∧ shared_secret (self s') = shared_secret (self s)
  ∧ api_root (self s') = api_root (self s)
  ∧ web_root (self s') = web_root (self s)
  ∧ clock s' = clock s ∧ rng s' = rng s.
Proof.
  unfold request_state, absorb_tokens.
  destruct fetched as [[| | | | | | | r]|]; try (repeat split; reflexivity).
  destruct (r !! "new_token"), (eq_str _ _); repeat split; reflexivity.
Qed.

(** X5: when the body the transport returns cannot be decoded,
    [_make_request] lets [ValueError] escape; when it decodes to something
    that is not a JSON object the token handling raises [TypeError] (a
    number, boolean or null, or a list or string that contains
    ['new_token']) or [AttributeError] (any other list or string).  In both
    cases the stored token is what it was. *)
Theorem undecodable_or_non_object_body url params method d s body :
  store s !! params = Some d ->
  urlopen_read (issued_request sign_and_encode d url method s) = Returned body ->
  let out := _make_request sign_and_encode urlopen_read json_loads url params method s in
  (json_loads body = None -> fst out = Raise ValueError)
  ∧ (∀ resp, json_loads body = Some resp -> (∀ r, resp ≠ PDict r) ->
       fst out = Raise (non_dict_error resp)
       ∧ (fst out = Raise TypeError ∨ fst out = Raise AttributeError))
  ∧ ((∀ r, json_loads body ≠ Some (PDict r)) ->
       lptoken (self (snd out)) = lptoken (self s)).
Proof.
  intros Hl Hbody out. subst out. rewrite (_make_request_outcome _ _ _ _ _ Hl).
  cbn [fst snd]. rewrite lptoken_request_state.
  unfold fetch. rewrite Hbody. split; [|split].
  - now intros ->.
  - intros resp -> Hnd.
    destruct resp as [| | | | str | items | items | r]; cbn [non_dict_error];
      try (split; [reflexivity | now left]).
    + destruct (Str.contains _ _); (split; [reflexivity|]); [now left | now right].
    + destruct (existsb _ _); (split; [reflexivity|]); [now left | now right].
    + destruct (existsb _ _); (split; [reflexivity|]); [now left | now right].
    + now destruct (Hnd r).
  - intros Hnd. destruct (json_loads body) as [[| | | | | | | r]|]; try reflexivity.
    now destruct (Hnd r).
Qed.

(** X6: [_make_request] signs before it talks to the transport: whenever
    the parameter map exists, exactly one call to the signer is logged, with
    the URL and method given, whatever the transport and the decoder then
    do.  Of the client only [lptoken] can change; of the store only the
    parameter map itself, which takes what the signer made of it. *)
Theorem request_signs_once_and_frames url params method d s :
  store s !! params = Some d ->
  let s' := snd (_make_request sign_and_encode urlopen_read json_loads
                   url params method s) in
  signer_calls s'
    = (signer_calls s ++ [mkSignCall (shared_secret (self s)) d url method])%list
  ∧ store s' !! params
    = Some (fst (sign_and_encode (clock s) (shared_secret (self s)) d url method))
  ∧ (∀ l, l ≠ params -> store s' !! l = store s !! l)
  ∧ cp_key (self s') = cp_key (self s)
  ∧ shared_secret (self s') = shared_secret (self s)
  ∧ api_root (self s') = api_root (self s)
  ∧ web_root (self s') = web_root (self s).
Proof.
  intros Hl s'. subst s'. rewrite (_make_request_outcome _ _ _ _ _ Hl). cbn [snd].
  split; [apply signer_calls_request_state|].
  rewrite store_request_state.
  split; [apply lookup_insert_eq|].
  split; [intros l Hne; now apply lookup_insert_ne|].
  pose proof (config_request_state params d url method
                (fetch urlopen_read json_loads
                   (issued_request sign_and_encode d url method s)) s) as H.
  simpl in H. tauto.
Qed.

End RequestOutcome.

Lemma undecodable_or_non_object_body_witness :
  fst (_make_request Demo.sign_and_encode (Demo.urlopen_read (Returned "[]"))
         (Demo.json_loads (PList []))
         "https://api.laterpay.net/access" 1%positive "GET" Demo.state_with_params)
  = Raise AttributeError.
Proof.
  refine (proj1 (proj1 (proj2 (undecodable_or_non_object_body Demo.sign_and_encode
                          (Demo.urlopen_read (Returned "[]")) (Demo.json_loads (PList []))
                          "https://api.laterpay.net/access" 1%positive "GET"
                          Demo.request_params Demo.state_with_params "[]" _ _))
                   (PList []) _ _)).
  - reflexivity.
  - reflexivity.
  - reflexivity.
  - discriminate.
Defined.

Lemma request_signs_once_and_frames_witness :
  signer_calls
    (snd (_make_request Demo.sign_and_encode
            (Demo.urlopen_read (RaisedURLError (PStr "timed out")))
            (Demo.json_loads PNone)
            "https://api.laterpay.net/access" 1%positive "GET" Demo.state_with_params))
  = [mkSignCall "secret" Demo.request_params "https://api.laterpay.net/access" "GET"].
Proof.
  refine (proj1 (request_signs_once_and_frames Demo.sign_and_encode
                   (Demo.urlopen_read (RaisedURLError (PStr "timed out")))
                   (Demo.json_loads PNone)
                   "https://api.laterpay.net/access" 1%positive "GET"
                   Demo.request_params Demo.state_with_params _)).
  reflexivity.
Defined.

(** ** The three API operations: outcome and final state *)

Lemma access_params_lptoken c article_ids product_key :
  access_params c article_ids product_key !! "lptoken" = Some (lptoken c)
  ∧ access_params c article_ids product_key !! "cp" = Some (PStr (cp_key c))
  ∧ access_params c article_ids product_key !! "product" = PStr <$> product_key.
Proof.
  unfold access_params, with_product.
  destruct product_key; repeat split;
    repeat (first [rewrite lookup_insert_eq | rewrite lookup_insert_ne by discriminate]);
    reflexivity.
Qed.

Section Operations.

Variable sign_and_encode : Z -> string -> dict -> string -> string -> dict * string.
Variable urlopen_read : Request -> transport_outcome.
Variable json_loads : string -> option pyval.

Lemma _make_request_outcome_at url l method d s :
  let fetched := fetch urlopen_read json_loads
                   (issued_request sign_and_encode d url method s) in
  _make_request sign_and_encode urlopen_read json_loads url l method (with_dict l d s)
  = (match fetched with
     | Ok (PDict r) => Ok (PDict r)
     | Ok resp => Raise (non_dict_error resp)
     | Raise e => Raise e
     end,
     request_state sign_and_encode l d url method fetched s).
Proof.
  intros fetched. subst fetched.
  destruct (fetch urlopen_read json_loads _) as [resp|e] eqn:Hf.
  - destruct resp as [| | | | str | items | items | r];
      try (rewrite (_make_request_not_dict_error _ _ _ _ _ _ _ _ _ Hf) by discriminate;
           reflexivity).
    now rewrite (_make_request_dict _ _ _ _ _ _ _ _ _ Hf).
  - now rewrite (_make_request_raise _ _ _ _ _ _ _ _ _ Hf).
Qed.

Lemma get_access_outcome article_ids product_key s :
  let l := fresh (dom (store s)) in
  let p := access_params (self s) article_ids product_key in
  let url := api_root (self s) ++ "/access" in
  let fetched := fetch urlopen_read json_loads
                   (issued_request sign_and_encode p url "GET" s) in
  get_access sign_and_encode urlopen_read json_loads article_ids product_key s
  = (match fetched with
     | Ok (PDict r) =>
         match r !! "status" with
         | Some status =>
             if in_strs status allowed_statuses then Ok (PDict r)
             else Raise (Exception [status])
         | None => Raise (KeyError "status")
         end
     | Ok resp => Raise (non_dict_error resp)
     | Raise e => Raise e
     end,
     request_state sign_and_encode l p url "GET" fetched s).
Proof.
  intros l p url fetched. unfold get_access, _access_url.
  cbv [bind gets ret]. rewrite new_dict_run; cbv beta iota.
  rewrite product_step_run; cbv beta iota. rewrite self_with_dict.
  rewrite _make_request_outcome_at. subst l p url fetched.
  unfold access_params, metered_params, add_params.
  destruct (fetch urlopen_read json_loads _) as [[| | | | str | items | items | r]|e];
    try reflexivity.
  cbn [getitem]. destruct (r !! "status") as [status|]; cbv [ret raise]; [|reflexivity].
  destruct (in_strs status allowed_statuses); reflexivity.
Qed.

Lemma get_metered_access_outcome article_ids threshold product_key s :
  let l := fresh (dom (store s)) in
  let p := metered_params (self s) article_ids threshold product_key in
  let url := api_root (self s) ++ "/access" in
  let fetched := fetch urlopen_read json_loads
                   (issued_request sign_and_encode p url "GET" s) in
  get_metered_access sign_and_encode urlopen_read json_loads article_ids threshold
    product_key s
  = (match fetched with
     | Ok (PDict r) =>
         match r !! "status" with
         | Some status =>
             if eq_str status "invalid_token" then Raise InvalidTokenException
             else if negb (eq_str status "ok") then Raise (Exception [])
             else match r !! "articles" with
                  | Some articles =>
                      Ok (articles, default (PBool false) (r !! "exceeded"),
                          default (PList []) (r !! "subs"))
                  | None => Raise (KeyError "articles")
                  end
         | None => Raise (KeyError "status")
         end
     | Ok resp => Raise (non_dict_error resp)
     | Raise e => Raise e
     end,
     request_state sign_and_encode l p url "GET" fetched s).
Proof.
  intros l p url fetched. unfold get_metered_access, _access_url.
  cbv [bind gets ret]. rewrite new_dict_run; cbv beta iota.
  rewrite product_step_run; cbv beta iota. rewrite self_with_dict.
  rewrite _make_request_outcome_at. subst l p url fetched.
  unfold access_params, metered_params, add_params.
  destruct (fetch urlopen_read json_loads _) as [[| | | | str | items | items | r]|e];
    try reflexivity.
  cbn [getitem get]. destruct (r !! "status") as [status|]; cbv [ret raise]; [|reflexivity].
  destruct (eq_str status "invalid_token"); cbn [when]; cbv [raise ret]; [reflexivity|].
  destruct (eq_str status "ok"); cbn [when negb]; cbv [raise ret]; [|reflexivity].
  destruct (r !! "articles"); reflexivity.
Qed.

Lemma add_metered_access_outcome article_id threshold product_key s :
  let l := fresh (dom (store s)) in
  let p := add_params (self s) article_id threshold product_key in
  let url := api_root (self s) ++ "/add" in
  let fetched := fetch urlopen_read json_loads
                   (issued_request sign_and_encode p url "POST" s) in
  add_metered_access sign_and_encode urlopen_read json_loads article_id threshold
    product_key s
  = (match fetched with
     | Ok (PDict r) =>
         match r !! "status" with
         | Some status =>
             if eq_str status "invalid_token" then Raise InvalidTokenException
             else Ok tt
         | None => Raise (KeyError "status")
         end
     | Ok resp => Raise (non_dict_error resp)
     | Raise e => Raise e
     end,
     request_state sign_and_encode l p url "POST" fetched s).
Proof.
  intros l p url fetched. unfold add_metered_access, _add_url.
  cbv [bind gets ret]. rewrite new_dict_run; cbv beta iota.
  rewrite product_step_run; cbv beta iota. rewrite self_with_dict.
  rewrite _make_request_outcome_at. subst l p url fetched.
  unfold access_params, metered_params, add_params.
  destruct (fetch urlopen_read json_loads _) as [[| | | | str | items | items | r]|e];
    try reflexivity.
  cbn [getitem]. destruct (r !! "status") as [status|]; cbv [ret raise]; [|reflexivity].
  destruct (eq_str status "invalid_token"); reflexivity.
Qed.

End Operations.

Lemma non_dict_error_kind resp :
  non_dict_error resp = TypeError ∨ non_dict_error resp = AttributeError.
Proof.
  destruct resp; simpl; auto.
  - destruct (Str.contains _ _); auto.
  - destruct (existsb _ _); auto.
  - destruct (existsb _ _); auto.
Qed.

Lemma token_after_invalid r old status :
  r !! "status" = Some status -> eq_str status "invalid_token" = true ->
  token_after r old = PNone.
Proof. intros Hs He. unfold token_after. rewrite Hs. simpl. now rewrite He. Qed.

Section OperationPolicies.

Variable sign_and_encode : Z -> string -> dict -> string -> string -> dict * string.
Variable urlopen_read : Request -> transport_outcome.
Variable json_loads : string -> option pyval.

(** X7: [add_metered_access] posts to [<api_root>/add]: the body of the
    request is the signed parameter string and the URL carries no query.
    When the response map to that request has status [invalid_token] it
    raises [InvalidTokenException]; for every other status, error statuses
    included, it returns [None] without complaint. *)
Theorem add_metered_access_policy article_id threshold product_key s r status :
  let url := api_root (self s) ++ "/add" in
  let params := add_params (self s) article_id threshold product_key in
  fetch urlopen_read json_loads
    {| req_url := url;
       req_data := Some (snd (sign_and_encode (clock s) (shared_secret (self s))
                                params url "POST"));
       req_headers := request_headers |} = Ok (PDict r) ->
  r !! "status" = Some status ->
  let out := add_metered_access sign_and_encode urlopen_read json_loads
               article_id threshold product_key s in
  (status = PStr "invalid_token" -> fst out = Raise InvalidTokenException)
  ∧ (status ≠ PStr "invalid_token" -> fst out = Ok tt)
  ∧ signer_calls (snd out)
    = (signer_calls s ++ [mkSignCall (shared_secret (self s)) params url "POST"])%list.
Proof.
  intros url params Hfetch Hstatus out. subst out.
  rewrite add_metered_access_outcome. cbn [fst snd].
  rewrite signer_calls_request_state.
  change (issued_request sign_and_encode
            (add_params (self s) article_id threshold product_key)
            (api_root (self s) ++ "/add") "POST" s)
    with {| req_url := url;
            req_data := Some (snd (sign_and_encode (clock s) (shared_secret (self s))
                                     params url "POST"));
            req_headers := request_headers |}.
  rewrite Hfetch, Hstatus. split; [|split; [|reflexivity]].
  - now intros ->.
  - intros Hne. destruct (eq_str status "invalid_token") eqn:E; [|reflexivity].
    now apply eq_str_true in E.
Qed.

(** X8: an [InvalidTokenException] from [get_metered_access] or
    [add_metered_access] always comes with a cleared token: after it,
    [self.lptoken] is [None] and [has_token()] answers [False]. *)
Theorem invalid_token_exception_clears_token s :
  (∀ article_ids threshold product_key,
     let out := get_metered_access sign_and_encode urlopen_read json_loads
                  article_ids threshold product_key s in
     fst out = Raise InvalidTokenException ->
     lptoken (self (snd out)) = PNone ∧ fst (has_token (snd out)) = Ok false)
  ∧ (∀ article_id threshold product_key,
       let out := add_metered_access sign_and_encode urlopen_read json_loads
                    article_id threshold product_key s in
       fst out = Raise InvalidTokenException ->
       lptoken (self (snd out)) = PNone ∧ fst (has_token (snd out)) = Ok false).
Proof.
  assert (Hhas : ∀ s', lptoken (self s') = PNone ->
                       lptoken (self s') = PNone ∧ fst (has_token s') = Ok false).
  { intros s' H. split; [exact H|]. unfold has_token. cbv [bind gets ret]. simpl.
    now rewrite H. }
  split.
  - intros article_ids threshold product_key out. subst out.
    rewrite get_metered_access_outcome. cbn [fst snd]. intros Hraise. apply Hhas.
    rewrite lptoken_request_state.
    destruct (fetch urlopen_read json_loads _) as [resp|e] eqn:Hf.
    + destruct resp as [| | | | str | items | items | r];
        try (exfalso; match type of Hraise with
                      | Raise (non_dict_error ?v) = _ =>
                          destruct (non_dict_error_kind v) as [E|E]; rewrite E in Hraise
                      end; discriminate Hraise).
      destruct (r !! "status") as [status|] eqn:Hs; [|discriminate Hraise].
      destruct (eq_str status "invalid_token") eqn:E.
      * now apply (token_after_invalid _ _ status).
      * destruct (negb _); [discriminate Hraise|].
        destruct (r !! "articles"); discriminate Hraise.
    + apply fetch_raises_only_ValueError in Hf. subst e. discriminate Hraise.
  - intros article_id threshold product_key out. subst out.
    rewrite add_metered_access_outcome. cbn [fst snd]. intros Hraise. apply Hhas.
    rewrite lptoken_request_state.
    destruct (fetch urlopen_read json_loads _) as [resp|e] eqn:Hf.
    + destruct resp as [| | | | str | items | items | r];
        try (exfalso; match type of Hraise with
                      | Raise (non_dict_error ?v) = _ =>
                          destruct (non_dict_error_kind v) as [E|E]; rewrite E in Hraise
                      end; discriminate Hraise).
      destruct (r !! "status") as [status|] eqn:Hs; [|discriminate Hraise].
      destruct (eq_str status "invalid_token") eqn:E.
      * now apply (token_after_invalid _ _ status).
      * discriminate Hraise.
    + apply fetch_raises_only_ValueError in Hf. subst e. discriminate Hraise.
Qed.

(** X9: the three operations treat a transport failure differently.  When
    every request fails with a URL error, [get_access] returns the map
    [{status: connection_error}], [get_metered_access] raises a generic
    exception without arguments and [add_metered_access] returns [None]; when
    every request fails with another exception, [get_access] raises a generic
    exception carrying ['unexpected error'], [get_metered_access] raises as
    before and [add_metered_access] again returns [None].  The stored token
    is never touched. *)
Theorem transport_failure_policies s :
  let access ids pk := get_access sign_and_encode urlopen_read json_loads ids pk s in
  let metered ids th pk :=
    get_metered_access sign_and_encode urlopen_read json_loads ids th pk s in
  let add id th pk :=
    add_metered_access sign_and_encode urlopen_read json_loads id th pk s in
  ((∀ req, ∃ reason, urlopen_read req = RaisedURLError reason) ->
     ∀ ids th pk,
       fst (access ids pk) = Ok (PDict (<["status" := PStr "connection_error"]> ∅))
       ∧ fst (metered ids th pk) = Raise (Exception [])
       ∧ fst (add ids th pk) = Ok tt
       ∧ lptoken (self (snd (access ids pk))) = lptoken (self s)
       ∧ lptoken (self (snd (metered ids th pk))) = lptoken (self s)
       ∧ lptoken (self (snd (add ids th pk))) = lptoken (self s))
  ∧ ((∀ req, urlopen_read req = RaisedOther) ->
     ∀ ids th pk,
       fst (access ids pk) = Raise (Exception [PStr "unexpected error"])
       ∧ fst (metered ids th pk) = Raise (Exception [])
       ∧ fst (add ids th pk) = Ok tt
       ∧ lptoken (self (snd (access ids pk))) = lptoken (self s)
       ∧ lptoken (self (snd (metered ids th pk))) = lptoken (self s)
       ∧ lptoken (self (snd (add ids th pk))) = lptoken (self s)).
Proof.
  intros access metered add. subst access metered add. cbv beta.
  split.
  - intros Hdown ids th pk.
    assert (Hf : ∀ req, fetch urlopen_read json_loads req
                        = Ok (PDict (<["status" := PStr "connection_error"]> ∅))).
    { intros req. unfold fetch. now destruct (Hdown req) as [reason ->]. }
    rewrite get_access_outcome, get_metered_access_outcome, add_metered_access_outcome.
    cbn [fst snd]. rewrite !lptoken_request_state, !Hf.
    repeat split; reflexivity.
  - intros Hdown ids th pk.
    assert (Hf : ∀ req, fetch urlopen_read json_loads req
                        = Ok (PDict (<["status" := PStr "unexpected error"]> ∅))).
    { intros req. unfold fetch. now rewrite Hdown. }
    rewrite get_access_outcome, get_metered_access_outcome, add_metered_access_outcome.
    cbn [fst snd]. rewrite !lptoken_request_state, !Hf.
    repeat split; reflexivity.
Qed.

(** X10: the token a response leaves in the client is the one the next
    request sends.  After a [get_access] whose response map carries
    [new_token] (and does not report [invalid_token]), the next [get_access]
    signs a parameter map whose [lptoken] is that token; after a response
    that reports [invalid_token] it signs [lptoken = None].  In both cases
    [cp] is the provider key. *)
Theorem next_request_sends_stored_token article_ids product_key s r :
  fetch urlopen_read json_loads
    (issued_request sign_and_encode (access_params (self s) article_ids product_key)
       (api_root (self s) ++ "/access") "GET" s) = Ok (PDict r) ->
  let s1 := snd (get_access sign_and_encode urlopen_read json_loads
                   article_ids product_key s) in
  ∀ article_ids2 product_key2,
    ∃ call,
      signer_calls (snd (get_access sign_and_encode urlopen_read json_loads
                           article_ids2 product_key2 s1))
      = (signer_calls s1 ++ [call])%list
      ∧ sc_params call !! "cp" = Some (PStr (cp_key (self s)))
      ∧ (r !! "status" = Some (PStr "invalid_token") ->
         sc_params call !! "lptoken" = Some PNone)
      ∧ (r !! "status" ≠ Some (PStr "invalid_token") ->
         ∀ token, r !! "new_token" = Some token ->
                  sc_params call !! "lptoken" = Some token)
      ∧ (r !! "status" ≠ Some (PStr "invalid_token") ->
         r !! "new_token" = None ->
         sc_params call !! "lptoken" = Some (lptoken (self s))).
Proof.
  intros Hfetch s1 article_ids2 product_key2. subst s1.
  rewrite (get_access_outcome _ _ _ article_ids product_key s). cbn [snd].
  rewrite Hfetch. rewrite get_access_outcome. cbn [snd].
  rewrite signer_calls_request_state. eexists. split; [reflexivity|].
  cbn [sc_params].
  destruct (access_params_lptoken
              (self (request_state sign_and_encode (fresh (dom (store s)))
                       (access_params (self s) article_ids product_key)
                       (api_root (self s) ++ "/access") "GET" (Ok (PDict r)) s))
              article_ids2 product_key2) as (-> & -> & _).
  rewrite lptoken_request_state.
  pose proof (config_request_state sign_and_encode (fresh (dom (store s)))
                (access_params (self s) article_ids product_key)
                (api_root (self s) ++ "/access") "GET" (Ok (PDict r)) s) as Hcfg.
  cbv zeta in Hcfg. destruct Hcfg as (-> & _).
  split; [reflexivity|]. unfold token_after.
  destruct (eq_str (default PNone (r !! "status")) "invalid_token") eqn:Hst.
  - apply status_invalid_token in Hst.
    split; [reflexivity|]. split; intros Hne; congruence.
  - assert (Hne : r !! "status" ≠ Some (PStr "invalid_token")).
    { intros H. apply status_invalid_token in H. congruence. }
    split; [congruence|]. split.
    + intros _ token ->. reflexivity.
    + intros _ ->. reflexivity.
Qed.

End OperationPolicies.

Lemma add_metered_access_policy_witness :
  fst (add_metered_access Demo.sign_and_encode (Demo.urlopen_read (Returned "body"))
         (Demo.json_loads (PDict Demo.response_teapot))
         (PStr "a1") (PInt 5) None Demo.state0)
  = Ok tt.
Proof.
  refine (proj1 (proj2 (add_metered_access_policy Demo.sign_and_encode
                          (Demo.urlopen_read (Returned "body"))
                          (Demo.json_loads (PDict Demo.response_teapot))
                          (PStr "a1") (PInt 5) None Demo.state0
                          Demo.response_teapot (PStr "teapot") _ _)) _).
  - reflexivity.
  - reflexivity.
  - discriminate.
Defined.

Lemma invalid_token_exception_clears_token_witness :
  lptoken (self (snd (get_metered_access Demo.sign_and_encode
                        (Demo.urlopen_read (Returned "body"))
                        (Demo.json_loads (PDict Demo2.response_invalid))
                        (PStr "a1") (PInt 5) None Demo2.state_with_token)))
  = PNone.
Proof.
  refine (proj1 (proj1 (invalid_token_exception_clears_token Demo.sign_and_encode
                          (Demo.urlopen_read (Returned "body"))
                          (Demo.json_loads (PDict Demo2.response_invalid))
                          Demo2.state_with_token)
                   (PStr "a1") (PInt 5) None _)).
  reflexivity.
Defined.

Lemma transport_failure_policies_witness :
  fst (get_access Demo.sign_and_encode
         (Demo.urlopen_read (RaisedURLError (PStr "timed out")))
         (Demo.json_loads PNone) (PStr "a1") None Demo2.state_with_token)
  = Ok (PDict (<["status" := PStr "connection_error"]> ∅))
  ∧ fst (get_metered_access Demo.sign_and_encode
           (Demo.urlopen_read (RaisedURLError (PStr "timed out")))
           (Demo.json_loads PNone) (PStr "a1") (PInt 5) None Demo2.state_with_token)
    = Raise (Exception []).
Proof.
  destruct (proj1 (transport_failure_policies Demo.sign_and_encode
                     (Demo.urlopen_read (RaisedURLError (PStr "timed out")))
                     (Demo.json_loads PNone) Demo2.state_with_token)
              (fun req => ex_intro _ (PStr "timed out") eq_refl)
              (PStr "a1") (PInt 5) None) as (Ha & Hm & _).
  split; [exact Ha | exact Hm].
Defined.

Lemma next_request_sends_stored_token_witness :
  ∃ call,
    signer_calls
      (snd (get_access Demo.sign_and_encode (Demo.urlopen_read (Returned "body"))
              (Demo.json_loads (PDict Demo2.response_refreshed)) (PStr "abc123") None
              (snd (get_access Demo.sign_and_encode (Demo.urlopen_read (Returned "body"))
                      (Demo.json_loads (PDict Demo2.response_refreshed))
                      (PStr "abc123") None Demo2.state_with_token))))
    = (signer_calls
         (snd (get_access Demo.sign_and_encode (Demo.urlopen_read (Returned "body"))
                 (Demo.json_loads (PDict Demo2.response_refreshed))
                 (PStr "abc123") None Demo2.state_with_token)) ++ [call])%list
    ∧ sc_params call !! "lptoken" = Some (PStr "fresh-token").
Proof.
  destruct (next_request_sends_stored_token Demo.sign_and_encode
              (Demo.urlopen_read (Returned "body"))
              (Demo.json_loads (PDict Demo2.response_refreshed))
              (PStr "abc123") None Demo2.state_with_token Demo2.response_refreshed
              eq_refl (PStr "abc123") None)
    as (call & Hcalls & _ & _ & Hnew & _).
  exists call. split; [exact Hcalls|].
  apply Hnew; [discriminate | reflexivity].
Defined.

(** ** The controls builders: parameter map and random prefix *)

Lemma shown_add_show sfx d : shown (add_show sfx d) = shown d ++ sfx.
Proof. unfold add_show. unfold shown at 1. now rewrite lookup_insert_eq. Qed.

Lemma lookup_add_show sfx d : add_show sfx d !! "show" = Some (PStr (shown d ++ sfx)).
Proof. unfold add_show. apply lookup_insert_eq. Qed.

Lemma lookup_add_show_ne sfx d k : k ≠ "show" -> add_show sfx d !! k = d !! k.
Proof. intros H. unfold add_show. now apply lookup_insert_ne. Qed.

Lemma append_show_exact l sfx d s :
  append_show l sfx (with_dict l d s) = (Ok tt, with_dict l (add_show sfx d) s).
Proof.
  unfold append_show, get_show, bind. rewrite dict_get_run. unfold ret.
  rewrite setitem_run. unfold add_show, shown.
  now destruct (d !! "show") as [[]|].
Qed.

Lemma ascii_letters_get k :
  is_letter (default "a"%char (String.get (k mod String.length ascii_letters) ascii_letters))
  = true.
Proof.
  assert (Hlt : (k mod String.length ascii_letters < 52)%nat)
    by (apply Nat.mod_upper_bound; discriminate).
  revert Hlt. generalize (k mod String.length ascii_letters). intros i Hi.
  do 52 (destruct i as [|i]; [reflexivity|]). lia.
Qed.

Section Controls.

Variable sign_and_encode : Z -> string -> dict -> string -> string -> dict * string.
Variable random_next : N -> nat * N.

Lemma join_random_choices_letters n g :
  String.length (fst (join_random_choices random_next ascii_letters n g)) = n
  ∧ Str.all is_letter (fst (join_random_choices random_next ascii_letters n g)) = true.
Proof.
  revert g. induction n as [|n IH]; intros g; [simpl; auto|].
  cbn [join_random_choices]. unfold random_choice.
  destruct (random_next g) as [k g']. specialize (IH g').
  destruct (join_random_choices random_next ascii_letters n g') as [rest g''].
  cbn [fst] in *. destruct IH as [Hlen Hall].
  cbn [String.length Str.all]. split; [now rewrite Hlen|].
  now rewrite ascii_letters_get, Hall.
Qed.

Lemma get_controls_links_url_run next_url css_url forcelang
    show_greeting show_long_greeting show_login show_signup show_long_signup
    use_jsevents s :
  let l := fresh (dom (store s)) in
  let drawn := join_random_choices random_next ascii_letters 10 (rng s) in
  let d := links_params (self s) next_url css_url forcelang show_greeting
             show_long_greeting show_login show_signup show_long_signup use_jsevents
             (fst drawn) in
  let url := web_root (self s) ++ "/controls/links" in
  let signed := sign_and_encode (clock s) (shared_secret (self s)) d url "GET" in
  get_controls_links_url sign_and_encode random_next next_url css_url forcelang
    show_greeting show_long_greeting show_login show_signup show_long_signup
    use_jsevents s
  = (Ok (url ++ "?" ++ snd signed),
     log_sign_call (mkSignCall (shared_secret (self s)) d url "GET")
       (with_dict l (fst signed) (set_rng (snd drawn) s))).
Proof.
  unfold get_controls_links_url, links_params.
  cbv [bind gets ret]. rewrite new_dict_run; cbv beta iota.
  rewrite setitem_run; cbv beta iota.
  do 3 (rewrite when_setitem_run; cbv beta iota).
  destruct show_long_greeting; [|destruct show_greeting; cbn [when]; cbv [ret]];
    try (rewrite append_show_exact); cbv beta iota;
    (destruct show_login; cbn [when]; cbv [ret];
     try (rewrite append_show_exact); cbv beta iota);
    (destruct show_long_signup; [|destruct show_signup; cbn [when]; cbv [ret]];
     try (rewrite append_show_exact); cbv beta iota);
    rewrite random_string_run; cbv beta iota;
    rewrite setitem_run; cbv beta iota;
    rewrite sign_run; reflexivity.
Qed.

Lemma get_controls_balance_url_run forcelang s :
  let l := fresh (dom (store s)) in
  let drawn := join_random_choices random_next ascii_letters 10 (rng s) in
  let d := balance_params (self s) forcelang (fst drawn) in
  let url := web_root (self s) ++ "/controls/balance" in
  let signed := sign_and_encode (clock s) (shared_secret (self s)) d url "GET" in
  get_controls_balance_url sign_and_encode random_next forcelang s
  = (Ok (url ++ "?" ++ snd signed),
     log_sign_call (mkSignCall (shared_secret (self s)) d url "GET")
       (with_dict l (fst signed) (set_rng (snd drawn) s))).
Proof.
  unfold get_controls_balance_url, balance_params.
  cbv [bind gets ret]. rewrite new_dict_run; cbv beta iota.
  rewrite when_setitem_run; cbv beta iota.
  rewrite random_string_run; cbv beta iota.
  rewrite setitem_run; cbv beta iota.
  rewrite sign_run. reflexivity.
Qed.

End Controls.

Lemma links_params_base (c : LaterPayClient) (next_url css_url forcelang : pyval)
    (use_jsevents : bool) :
  let d0 : dict := <["cp" := PStr (cp_key c)]> (<["next" := next_url]> ∅) in
  let d1 : dict := if is_not_None forcelang then <["forcelang" := forcelang]> d0 else d0 in
  let d2 : dict := if is_not_None css_url then <["css" := css_url]> d1 else d1 in
  let d3 : dict := if use_jsevents then <["jsevents" := PStr "1"]> d2 else d2 in
  d3 !! "show" = None
  ∧ d3 !! "xdmprefix" = None
  ∧ d3 !! "next" = Some next_url
  ∧ d3 !! "cp" = Some (PStr (cp_key c))
  ∧ d3 !! "forcelang" = (if is_not_None forcelang then Some forcelang else None)
  ∧ d3 !! "css" = (if is_not_None css_url then Some css_url else None)
  ∧ d3 !! "jsevents" = (if use_jsevents then Some (PStr "1") else None).
Proof.
  cbv zeta.
  destruct use_jsevents, (is_not_None css_url), (is_not_None forcelang);
    repeat split;
    repeat (first [rewrite lookup_insert_eq | rewrite lookup_insert_ne by discriminate]);
    try reflexivity; apply lookup_empty.
Qed.

Section ControlsParameters.

Variable sign_and_encode : Z -> string -> dict -> string -> string -> dict * string.
Variable random_next : N -> nat * N.

(** X11: [get_controls_links_url] signs, for [<web_root>/controls/links], a
    map with [next], [cp] (the provider key), [forcelang] and [css] when
    given, [jsevents] as the string ["1"] when asked for, and a [show] entry
    made of [gg] or [g], then [l], then [ss] or [s]: the long form of a flag
    hides the short one, and with no flag set there is no [show] entry at
    all. *)
Theorem controls_links_parameters next_url css_url forcelang
    show_greeting show_long_greeting show_login show_signup show_long_signup
    use_jsevents s :
  let out := get_controls_links_url sign_and_encode random_next next_url css_url
               forcelang show_greeting show_long_greeting show_login show_signup
               show_long_signup use_jsevents s in
  let flags := show_flags show_greeting show_long_greeting show_login show_signup
                 show_long_signup in
  ∃ call,
    signer_calls (snd out) = (signer_calls s ++ [call])%list
    ∧ sc_url call = web_root (self s) ++ "/controls/links"
    ∧ sc_method call = "GET"
    ∧ sc_params call !! "next" = Some next_url
    ∧ sc_params call !! "cp" = Some (PStr (cp_key (self s)))
    ∧ sc_params call !! "forcelang"
      = (if is_not_None forcelang then Some forcelang else None)
    ∧ sc_params call !! "css" = (if is_not_None css_url then Some css_url else None)
    ∧ sc_params call !! "jsevents" = (if use_jsevents then Some (PStr "1") else None)
    ∧ sc_params call !! "show"
      = (if String.eqb flags "" then None else Some (PStr flags)).
Proof.
  intros out flags. subst out flags. rewrite get_controls_links_url_run.
  eexists. split; [reflexivity|]. cbn [snd sc_url sc_method sc_params].
  split; [reflexivity|]. split; [reflexivity|].
  unfold links_params.
  pose proof (links_params_base (self s) next_url css_url forcelang use_jsevents)
    as Hbase. cbv zeta in Hbase.
  set (d3 := if use_jsevents then _ else _) in *. clearbody d3.
  destruct Hbase as (Hshow & _ & Hnext & Hcp & Hlang & Hcss & Hjs).
  assert (Hshown : shown d3 = "") by (unfold shown; now rewrite Hshow).
  rewrite <- Hnext, <- Hcp, <- Hlang, <- Hcss, <- Hjs.
  destruct show_long_greeting, show_greeting, show_login, show_long_signup, show_signup;
    cbn [show_flags String.eqb Ascii.eqb String.append];
    repeat split;
    repeat (first [rewrite lookup_insert_ne by discriminate
                  | rewrite lookup_add_show_ne by discriminate]);
    try reflexivity;
    repeat (first [rewrite lookup_add_show | rewrite shown_add_show]);
    rewrite ?Hshown; try reflexivity; exact Hshow.
Qed.

(** X12: the [xdmprefix] both controls builders sign is a string of
    exactly ten ASCII letters, whatever the random generator returns; the
    balance builder signs nothing but [cp], [xdmprefix] and, when given,
    [forcelang]. *)
Theorem controls_xdmprefix s :
  (∀ next_url css_url forcelang show_greeting show_long_greeting show_login
     show_signup show_long_signup use_jsevents,
     ∃ call prefix,
       signer_calls (snd (get_controls_links_url sign_and_encode random_next next_url
                            css_url forcelang show_greeting show_long_greeting
                            show_login show_signup show_long_signup use_jsevents s))
       = (signer_calls s ++ [call])%list
       ∧ sc_params call !! "xdmprefix" = Some (PStr prefix)
       ∧ String.length prefix = 10%nat
       ∧ Str.all is_letter prefix = true)
  ∧ (∀ forcelang,
       ∃ call prefix,
         signer_calls (snd (get_controls_balance_url sign_and_encode random_next
                              forcelang s))
         = (signer_calls s ++ [call])%list
         ∧ sc_url call = web_root (self s) ++ "/controls/balance"
         ∧ sc_params call !! "xdmprefix" = Some (PStr prefix)
         ∧ String.length prefix = 10%nat
         ∧ Str.all is_letter prefix = true
         ∧ sc_params call !! "cp" = Some (PStr (cp_key (self s)))
         ∧ dom (sc_params call)
           = (if is_not_None forcelang
              then list_to_set ["cp"; "forcelang"; "xdmprefix"]
              else list_to_set ["cp"; "xdmprefix"])).
Proof.
  pose proof (join_random_choices_letters random_next 10 (rng s)) as [Hlen Hall].
  split.
  - intros. rewrite get_controls_links_url_run. eexists _, _.
    split; [reflexivity|]. cbn [snd sc_params]. unfold links_params.
    split; [apply lookup_insert_eq|]. split; [exact Hlen | exact Hall].
  - intros. rewrite get_controls_balance_url_run. eexists _, _.
    split; [reflexivity|]. cbn [snd sc_params sc_url]. unfold balance_params.
    split; [reflexivity|].
    split; [apply lookup_insert_eq|]. split; [exact Hlen|]. split; [exact Hall|].
    destruct (is_not_None forcelang); split;
      repeat (first [rewrite lookup_insert_eq | rewrite lookup_insert_ne by discriminate]);
      try reflexivity;
      rewrite !dom_insert_L, dom_empty_L; simpl; set_solver.
Qed.

End ControlsParameters.

(** ** The signing builders: what they sign and what they leave alone *)

Lemma preserves_store_fresh l d s :
  l = fresh (dom (store s)) -> preserves_store s (with_dict l d s).
Proof.
  intros -> l' Hl'. apply lookup_with_dict_ne. intros <-. now apply is_fresh in Hl'.
Qed.

Section SigningBuilders.

Variable sign_and_encode : Z -> string -> dict -> string -> string -> dict * string.
Variable quote_plus : string -> string.
Variable random_next : N -> nat * N.

Lemma get_gettoken_redirect_run return_to s :
  let l := fresh (dom (store s)) in
  let d : dict := <["redir" := return_to]> (<["cp" := PStr (cp_key (self s))]> ∅) in
  let url := api_root (self s) ++ "/gettoken" in
  let signed := sign_and_encode (clock s) (shared_secret (self s)) d url "GET" in
  get_gettoken_redirect sign_and_encode return_to s
  = (Ok (url ++ "?" ++ snd signed),
     log_sign_call (mkSignCall (shared_secret (self s)) d url "GET")
       (with_dict l (fst signed) s)).
Proof.
  unfold get_gettoken_redirect, _gettoken_url.
  cbv [bind gets ret]. rewrite new_dict_run; cbv beta iota.
  rewrite sign_run. reflexivity.
Qed.

Lemma get_identify_url_run (identify_callback : pyval) s :
  let l := fresh (dom (store s)) in
  let d : dict :=
    if is_not_None identify_callback
    then <["callback_url" := identify_callback]> (<["cp" := PStr (cp_key (self s))]> ∅)
    else <["cp" := PStr (cp_key (self s))]> ∅ in
  let url := api_root (self s) ++ "/identify" in
  let signed := sign_and_encode (clock s) (shared_secret (self s)) d url "GET" in
  get_identify_url sign_and_encode identify_callback s
  = (Ok (url ++ "?" ++ snd signed),
     log_sign_call (mkSignCall (shared_secret (self s)) d url "GET")
       (with_dict l (fst signed) s)).
Proof.
  unfold get_identify_url, _identify_url.
  cbv [bind gets ret]. rewrite new_dict_run; cbv beta iota.
  rewrite when_setitem_run; cbv beta iota.
  rewrite sign_run. reflexivity.
Qed.

(** X13: the token bootstrap URL is signed over exactly [redir] and [cp];
    the identify URL over [cp] alone, or over [cp] and [callback_url] when a
    callback is given (any value other than [None], the empty string
    included).  Both are GET signatures for [<api_root>/gettoken] and
    [<api_root>/identify]. *)
Theorem bootstrap_and_identify_parameters s :
  (∀ return_to, ∃ call,
     signer_calls (snd (get_gettoken_redirect sign_and_encode return_to s))
     = (signer_calls s ++ [call])%list
     ∧ sc_url call = api_root (self s) ++ "/gettoken"
     ∧ sc_method call = "GET"
     ∧ dom (sc_params call) = list_to_set ["redir"; "cp"]
     ∧ sc_params call !! "redir" = Some return_to
     ∧ sc_params call !! "cp" = Some (PStr (cp_key (self s))))
  ∧ (∀ identify_callback, ∃ call,
       signer_calls (snd (get_identify_url sign_and_encode identify_callback s))
       = (signer_calls s ++ [call])%list
       ∧ sc_url call = api_root (self s) ++ "/identify"
       ∧ sc_method call = "GET"
       ∧ sc_params call !! "cp" = Some (PStr (cp_key (self s)))
       ∧ (identify_callback = PNone ->
          dom (sc_params call) = list_to_set ["cp"])
       ∧ (identify_callback ≠ PNone ->
          dom (sc_params call) = list_to_set ["cp"; "callback_url"]
          ∧ sc_params call !! "callback_url" = Some identify_callback)).
Proof.
  split.
  - intros return_to. rewrite get_gettoken_redirect_run. eexists.
    split; [reflexivity|]. cbn [snd sc_url sc_method sc_params].
    repeat split;
      repeat (first [rewrite lookup_insert_eq | rewrite lookup_insert_ne by discriminate]);
      try reflexivity.
    all: rewrite !dom_insert_L, dom_empty_L; simpl; set_solver.
  - intros identify_callback. rewrite get_identify_url_run. eexists.
    split; [reflexivity|]. cbn [snd sc_url sc_method sc_params].
    split; [reflexivity|]. split; [reflexivity|].
    destruct identify_callback; cbn [is_not_None];
      (split; [repeat (first [rewrite lookup_insert_eq
                             | rewrite lookup_insert_ne by discriminate]);
               reflexivity|]);
      (split; [intros H; try discriminate H;
               rewrite !dom_insert_L, dom_empty_L; simpl; set_solver|]);
      intros H; try congruence;
      (split; [rewrite !dom_insert_L, dom_empty_L; simpl; set_solver
              | apply lookup_insert_eq]).
Qed.

(** X14: none of the four signing builders touches the client or the
    clock, and each leaves every dictionary that existed before the call
    with its contents: the parameter map is a new dictionary every time. *)
Theorem signing_builders_frame s :
  let framed (s' : state) :=
    self s' = self s ∧ clock s' = clock s ∧ preserves_store s s' in
  (∀ return_to, framed (snd (get_gettoken_redirect sign_and_encode return_to s)))
  ∧ (∀ identify_callback,
       framed (snd (get_identify_url sign_and_encode identify_callback s)))
  ∧ (∀ next_url css_url forcelang show_greeting show_long_greeting show_login
       show_signup show_long_signup use_jsevents,
       framed (snd (get_controls_links_url sign_and_encode random_next next_url
                      css_url forcelang show_greeting show_long_greeting show_login
                      show_signup show_long_signup use_jsevents s)))
  ∧ (∀ forcelang,
       framed (snd (get_controls_balance_url sign_and_encode random_next forcelang s))).
Proof.
  intros framed. subst framed. cbv beta.
  assert (Hstore : ∀ d g c,
            preserves_store s (log_sign_call c (with_dict (fresh (dom (store s))) d
                                                  (set_rng g s)))).
  { intros d g c l Hl. simpl. apply lookup_insert_ne. intros <-.
    now apply is_fresh in Hl. }
  repeat apply conj; intros.
  - rewrite get_gettoken_redirect_run. cbn [snd].
    split; [reflexivity|]. split; [reflexivity|].
    intros l Hl. simpl. apply lookup_insert_ne. intros <-. now apply is_fresh in Hl.
  - rewrite get_identify_url_run. cbn [snd].
    split; [reflexivity|]. split; [reflexivity|].
    intros l Hl. simpl. apply lookup_insert_ne. intros <-. now apply is_fresh in Hl.
  - rewrite get_controls_links_url_run. cbn [snd].
    split; [reflexivity|]. split; [reflexivity|]. apply Hstore.
  - rewrite get_controls_balance_url_run. cbn [snd].
    split; [reflexivity|]. split; [reflexivity|]. apply Hstore.
Qed.

End SigningBuilders.

(** ** Buy and add: the options and the item's own parameters *)

Lemma web_params_other d0 use_jsevents skip tref consumable expires_at k :
  k ∉ web_option_keys ->
  web_params d0 use_jsevents skip tref consumable expires_at !! k = d0 !! k.
Proof.
  intros Hk. unfold web_option_keys in Hk.
  assert (Hne : k ≠ "jsevents" ∧ k ≠ "consumable" ∧ k ≠ "expires_at" ∧ k ≠ "tref"
                ∧ k ≠ "skip_add_to_invoice").
  { repeat split; intros ->; apply Hk; set_solver. }
  destruct Hne as (H1 & H2 & H3 & H4 & H5). unfold web_params.
  destruct skip; [rewrite lookup_insert_ne by congruence|];
    (destruct (truthy tref); [rewrite lookup_insert_ne by congruence|]);
    (destruct (is_not_None expires_at); [rewrite lookup_insert_ne by congruence|]);
    (destruct consumable; [rewrite lookup_insert_ne by congruence|]);
    (destruct use_jsevents; [rewrite lookup_insert_ne by congruence|]);
    reflexivity.
Qed.

Lemma web_params_flags d0 use_jsevents skip tref consumable expires_at :
  let d := web_params d0 use_jsevents skip tref consumable expires_at in
  d !! "jsevents" = (if use_jsevents then Some (PInt 1) else d0 !! "jsevents")
  ∧ d !! "consumable" = (if consumable then Some (PInt 1) else d0 !! "consumable")
  ∧ d !! "expires_at"
    = (if is_not_None expires_at then Some expires_at else d0 !! "expires_at")
  ∧ d !! "skip_add_to_invoice"
    = (if skip then Some (PInt 1) else d0 !! "skip_add_to_invoice").
Proof.
  unfold web_params.
  destruct skip, (truthy tref), (is_not_None expires_at), consumable, use_jsevents;
    repeat split;
    repeat (first [rewrite lookup_insert_eq | rewrite lookup_insert_ne by discriminate]);
    reflexivity.
Qed.

Section ShopParameters.

Variable sign_and_encode : Z -> string -> dict -> string -> string -> dict * string.
Variable quote_plus : string -> string.

(** X15: on the map that [get_buy_url] and [get_add_url] sign, every key
    of the item definition other than the five option keys keeps the item's
    value; [jsevents], [consumable] and [skip_add_to_invoice] are the integer
    1 when the flag is set and otherwise whatever the item's map had
    (normally nothing); [expires_at] is sent whenever it is not [None], a
    zero included. *)
Theorem shop_url_options page item product_key dialog use_jsevents skip tref
    consumable expires_at d0 s :
  store s !! data item = Some d0 ->
  tref_rejected tref = false ->
  ∃ call,
    signer_calls (snd (shop_url sign_and_encode quote_plus page item product_key dialog
                         use_jsevents skip tref consumable expires_at s))
    = (signer_calls s ++ [call])%list
    ∧ (∀ k, k ∉ web_option_keys -> sc_params call !! k = d0 !! k)
    ∧ sc_params call !! "jsevents"
      = (if use_jsevents then Some (PInt 1) else d0 !! "jsevents")
    ∧ sc_params call !! "consumable"
      = (if consumable then Some (PInt 1) else d0 !! "consumable")
    ∧ sc_params call !! "skip_add_to_invoice"
      = (if skip then Some (PInt 1) else d0 !! "skip_add_to_invoice")
    ∧ sc_params call !! "expires_at"
      = (if is_not_None expires_at then Some expires_at else d0 !! "expires_at").
Proof.
  intros Hd0 Htref. rewrite shop_url_web.
  rewrite (_get_web_url_run sign_and_encode quote_plus item (page_type_of page)
             product_key dialog use_jsevents skip tref consumable expires_at d0 s
             Hd0 Htref).
  eexists. split; [reflexivity|]. cbn [sc_params].
  split; [intros k Hk; now apply web_params_other|].
  pose proof (web_params_flags d0 use_jsevents skip tref consumable expires_at) as H.
  cbv zeta in H. tauto.
Qed.

(** X16: an item definition that was constructed successfully can be
    built into a buy or add URL right away, and the map that is signed
    carries the constructor's arguments: [article_id], [pricing], [vat],
    [url], [title], and as [cp] the constructor's [cp] argument ([None] when
    omitted); the client's own provider key is not added by these
    builders. *)
Theorem item_definition_then_shop_url item_id pricing vat url title purchasedatetime cp
    page product_key dialog use_jsevents skip tref consumable expires_at s item :
  fst (ItemDefinition_init item_id pricing vat url title purchasedatetime cp s)
    = Ok item ->
  tref_rejected tref = false ->
  let s1 := snd (ItemDefinition_init item_id pricing vat url title purchasedatetime
                   cp s) in
  ∃ built call,
    shop_url sign_and_encode quote_plus page item product_key dialog use_jsevents skip
      tref consumable expires_at s1
    = (Ok built, snd (shop_url sign_and_encode quote_plus page item product_key dialog
                        use_jsevents skip tref consumable expires_at s1))
    ∧ signer_calls (snd (shop_url sign_and_encode quote_plus page item product_key
                           dialog use_jsevents skip tref consumable expires_at s1))
      = (signer_calls s ++ [call])%list
    ∧ sc_params call !! "cp" = Some cp
    ∧ sc_params call !! "article_id" = Some item_id
    ∧ sc_params call !! "pricing" = Some (PStr pricing)
    ∧ sc_params call !! "vat" = Some (PStr vat)
    ∧ sc_params call !! "url" = Some url
    ∧ sc_params call !! "title" = Some title.
Proof.
  intros Hok Htref s1. subst s1. revert Hok. rewrite ItemDefinition_init_run.
  destruct (List.find _ (Str.split "," pricing)); [discriminate|].
  destruct (List.find _ (Str.split "," vat)); [discriminate|].
  destruct (purchasedatetime_valid purchasedatetime); [|discriminate].
  cbn [fst snd]. intros [= <-]. rewrite shop_url_web.
  match goal with |- context [with_dict ?l ?d s] =>
    rewrite (_get_web_url_run sign_and_encode quote_plus {| data := l |}
               (page_type_of page) product_key dialog use_jsevents skip tref
               consumable expires_at d (with_dict l d s)
               (lookup_with_dict l d s) Htref)
  end.
  eexists _, _. split; [reflexivity|]. split; [reflexivity|]. cbn [sc_params].
  repeat split;
    (rewrite web_params_other
       by (unfold web_option_keys; intros Hin;
           repeat (apply elem_of_cons in Hin as [Hin|Hin]; [discriminate Hin|]);
           inversion Hin));
    unfold item_data;
    repeat (first [rewrite lookup_insert_eq | rewrite lookup_insert_ne by discriminate]);
    reflexivity.
Qed.

End ShopParameters.

Lemma shop_url_options_witness :
  ∃ call,
    signer_calls (snd (get_buy_url Demo.sign_and_encode Demo.quote_plus Demo.item None
                         true false false None false (PInt 0) Demo.state_with_item))
    = (signer_calls Demo.state_with_item ++ [call])%list
    ∧ sc_params call !! "expires_at" = Some (PInt 0)
    ∧ sc_params call !! "article_id" = Some (PStr "a1").
Proof.
  destruct (shop_url_options Demo.sign_and_encode Demo.quote_plus Buy Demo.item None
              true false false None false (PInt 0) Demo.item_dict
              Demo.state_with_item eq_refl eq_refl)
    as (call & Hcalls & Hother & _ & _ & _ & Hexp).
  exists call. split; [exact Hcalls|]. split; [exact Hexp|].
  rewrite Hother; [reflexivity|].
  unfold web_option_keys. intros Hin.
  repeat (apply elem_of_cons in Hin as [Hin|Hin]; [discriminate Hin|]).
  inversion Hin.
Defined.

Lemma item_definition_then_shop_url_witness :
  ∃ built call,
    get_add_url Demo.sign_and_encode Demo.quote_plus Demo.item None true false false
      None false PNone Demo.state_with_item
    = (Ok built, snd (get_add_url Demo.sign_and_encode Demo.quote_plus Demo.item None
                        true false false None false PNone Demo.state_with_item))
    ∧ signer_calls (snd (get_add_url Demo.sign_and_encode Demo.quote_plus Demo.item
                           None true false false None false PNone
                           Demo.state_with_item))
      = ([] ++ [call])%list
    ∧ sc_params call !! "cp" = Some PNone.
Proof.
  destruct (item_definition_then_shop_url Demo.sign_and_encode Demo.quote_plus
              (PStr "a1") "EUR2" "DE19" (PStr "http://example.com/a1") (PStr "Article")
              PNone PNone Add None true false false None false PNone Demo.state0
              Demo.item eq_refl eq_refl)
    as (built & call & Hrun & Hcalls & Hcp & _).
  exists built, call. split; [exact Hrun|]. split; [exact Hcalls | exact Hcp].
Defined.

(** ** What the access operations send, and what they can raise *)

Lemma with_product_lookup product_key (d : dict) k :
  k ≠ "product" -> with_product product_key d !! k = d !! k.
Proof.
  intros Hk. unfold with_product. destruct product_key; [|reflexivity].
  now apply lookup_insert_ne.
Qed.

Lemma with_product_product product_key (d : dict) :
  d !! "product" = None -> with_product product_key d !! "product" = PStr <$> product_key.
Proof.
  intros Hd. unfold with_product. destruct product_key; [apply lookup_insert_eq|].
  exact Hd.
Qed.

Section AccessParameters.

Variable sign_and_encode : Z -> string -> dict -> string -> string -> dict * string.
Variable urlopen_read : Request -> transport_outcome.
Variable json_loads : string -> option pyval.

(** X17: whatever the transport answers, [get_metered_access] signs a GET
    of [<api_root>/access] and [add_metered_access] a POST of
    [<api_root>/add], both with [feature=metered], [period=monthly], the
    given [threshold], the stored token as [lptoken], the provider key as
    [cp], and [product] exactly when a product key is given;
    [add_metered_access] sends [article_id] as it is given, without wrapping
    a single id in a list. *)
Theorem metered_request_parameters s :
  let metered_call (call : sign_call) (threshold : pyval) (product_key : option string) :=
    sc_params call !! "feature" = Some (PStr "metered")
    ∧ sc_params call !! "period" = Some (PStr "monthly")
    ∧ sc_params call !! "threshold" = Some threshold
    ∧ sc_params call !! "lptoken" = Some (lptoken (self s))
    ∧ sc_params call !! "cp" = Some (PStr (cp_key (self s)))
    ∧ sc_params call !! "product" = PStr <$> product_key in
  (∀ article_ids threshold product_key, ∃ call,
     signer_calls (snd (get_metered_access sign_and_encode urlopen_read json_loads
                          article_ids threshold product_key s))
     = (signer_calls s ++ [call])%list
     ∧ sc_url call = api_root (self s) ++ "/access"
     ∧ sc_method call = "GET"
     ∧ metered_call call threshold product_key)
  ∧ (∀ article_id threshold product_key, ∃ call,
       signer_calls (snd (add_metered_access sign_and_encode urlopen_read json_loads
                            article_id threshold product_key s))
       = (signer_calls s ++ [call])%list
       ∧ sc_url call = api_root (self s) ++ "/add"
       ∧ sc_method call = "POST"
       ∧ sc_params call !! "article_id" = Some article_id
       ∧ metered_call call threshold product_key).
Proof.
  intros metered_call. subst metered_call. cbv beta. split.
  - intros article_ids threshold product_key.
    rewrite get_metered_access_outcome. cbn [snd].
    rewrite signer_calls_request_state. eexists. split; [reflexivity|].
    cbn [sc_url sc_method sc_params]. unfold metered_params.
    repeat split;
      try (rewrite with_product_lookup by discriminate;
           repeat (first [rewrite lookup_insert_eq
                         | rewrite lookup_insert_ne by discriminate]);
           reflexivity).
    apply with_product_product.
    repeat (rewrite lookup_insert_ne by discriminate). apply lookup_empty.
  - intros article_id threshold product_key.
    rewrite add_metered_access_outcome. cbn [snd].
    rewrite signer_calls_request_state. eexists. split; [reflexivity|].
    cbn [sc_url sc_method sc_params]. unfold add_params.
    repeat split;
      try (rewrite with_product_lookup by discriminate;
           repeat (first [rewrite lookup_insert_eq
                         | rewrite lookup_insert_ne by discriminate]);
           reflexivity).
    apply with_product_product.
    repeat (rewrite lookup_insert_ne by discriminate). apply lookup_empty.
Qed.

(** X18: [get_access] never raises [InvalidTokenException]: what it can
    raise is the generic exception carrying a status that is not on its
    list, [KeyError] for a response map without status, [TypeError] or
    [AttributeError] for a body that is not a JSON object, and [ValueError]
    for a body that is not JSON. *)
Theorem get_access_exceptions article_ids product_key s e :
  fst (get_access sign_and_encode urlopen_read json_loads article_ids product_key s)
    = Raise e ->
  e ≠ InvalidTokenException
  ∧ ((∃ status, e = Exception [status] ∧ in_strs status allowed_statuses = false)
     ∨ e = KeyError "status" ∨ e = TypeError ∨ e = AttributeError ∨ e = ValueError).
Proof.
  rewrite get_access_outcome. cbn [fst].
  destruct (fetch urlopen_read json_loads _) as [resp|e'] eqn:Hf.
  - destruct resp as [| | | | str | items | items | r];
      try (match goal with
           | |- context [non_dict_error ?v] =>
               destruct (non_dict_error_kind v) as [E|E]; rewrite E
           end; intros [= <-]; (split; [discriminate | auto 8])).
    destruct (r !! "status") as [status|].
    + destruct (in_strs status allowed_statuses) eqn:Hin; [discriminate|].
      intros [= <-]. split; [discriminate|]. left. eauto.
    + intros [= <-]. split; [discriminate | auto].
  - apply fetch_raises_only_ValueError in Hf. subst e'. intros [= <-].
    split; [discriminate | auto 6].
Qed.

End AccessParameters.

Lemma get_access_exceptions_witness :
  Exception [PStr "teapot"] ≠ InvalidTokenException.
Proof.
  refine (proj1 (get_access_exceptions Demo.sign_and_encode
                   (Demo.urlopen_read (Returned "body"))
                   (Demo.json_loads (PDict Demo.response_teapot))
                   (PStr "x") None Demo.state0 (Exception [PStr "teapot"]) _)).
  reflexivity.
Defined.

Lemma bootstrap_and_identify_parameters_witness :
  ∃ call,
    signer_calls (snd (get_identify_url Demo.sign_and_encode PNone Demo.state0))
    = ([] ++ [call])%list
    ∧ dom (sc_params call) = list_to_set ["cp"].
Proof.
  destruct (proj2 (bootstrap_and_identify_parameters Demo.sign_and_encode Demo.state0)
              PNone) as (call & Hcalls & _ & _ & _ & Hnone & _).
  exists call. split; [exact Hcalls | exact (Hnone eq_refl)].
Defined.

(** ** [get_access]: a single article id *)

Section SingleId.

Variable sign_and_encode : Z -> string -> dict -> string -> string -> dict * string.
Variable urlopen_read : Request -> transport_outcome.
Variable json_loads : string -> option pyval.

(** C10: [get_access] wraps a single article id that is neither a list
    nor a tuple in a one-element list before it assembles the request
    parameters: the one call it makes to the signer, a GET of
    [<api_root>/access], is on a map whose [article_id] is the list [[x]]
    (next to the stored [lptoken], [cp], and [product] when given), and the
    whole call, outcome and final state, is the one [get_access([x])] makes.
    A list or a tuple of ids is sent as it is. *)
Theorem get_access_single_id x product_key s :
  isinstance_list_tuple x = false ->
  get_access sign_and_encode urlopen_read json_loads x product_key s
  = get_access sign_and_encode urlopen_read json_loads (PList [x]) product_key s
  ∧ (∃ call,
       signer_calls (snd (get_access sign_and_encode urlopen_read json_loads
                            x product_key s))
       = (signer_calls s ++ [call])%list
       ∧ sc_url call = api_root (self s) ++ "/access"
       ∧ sc_method call = "GET"
       ∧ sc_params call !! "article_id" = Some (PList [x])
       ∧ sc_params call !! "lptoken" = Some (lptoken (self s))
       ∧ sc_params call !! "cp" = Some (PStr (cp_key (self s)))
       ∧ sc_params call !! "product" = PStr <$> product_key)
  ∧ (∀ ids, isinstance_list_tuple ids = true ->
       ∃ call,
         signer_calls (snd (get_access sign_and_encode urlopen_read json_loads
                              ids product_key s))
         = (signer_calls s ++ [call])%list
         ∧ sc_params call !! "article_id" = Some ids).
Proof.
  intros Hx. split; [|split].
  - unfold get_access, normalize_ids. now rewrite Hx.
  - rewrite get_access_outcome. cbn [snd]. rewrite signer_calls_request_state.
    eexists. split; [reflexivity|]. cbn [sc_url sc_method sc_params].
    split; [reflexivity|]. split; [reflexivity|].
    destruct (access_params_lptoken (self s) x product_key) as (-> & -> & ->).
    split; [|auto].
    unfold access_params. rewrite with_product_lookup by discriminate.
    do 2 (rewrite lookup_insert_ne by discriminate). rewrite lookup_insert_eq.
    unfold normalize_ids. now rewrite Hx.
  - intros ids Hids. rewrite get_access_outcome. cbn [snd].
    rewrite signer_calls_request_state.
    eexists. split; [reflexivity|]. cbn [sc_params].
    unfold access_params. rewrite with_product_lookup by discriminate.
    do 2 (rewrite lookup_insert_ne by discriminate). rewrite lookup_insert_eq.
    unfold normalize_ids. now rewrite Hids.
Qed.

End SingleId.

Lemma get_access_single_id_witness :
  get_access Demo.sign_and_encode (Demo.urlopen_read (Returned "body"))
    (Demo.json_loads (PDict Demo.response_ok)) (PStr "abc123") None Demo.state0
  = get_access Demo.sign_and_encode (Demo.urlopen_read (Returned "body"))
      (Demo.json_loads (PDict Demo.response_ok)) (PList [PStr "abc123"]) None Demo.state0
  ∧ ∃ call,
      signer_calls (snd (get_access Demo.sign_and_encode
                           (Demo.urlopen_read (Returned "body"))
                           (Demo.json_loads (PDict Demo.response_ok))
                           (PStr "abc123") None Demo.state0))
      = ([] ++ [call])%list
      ∧ sc_params call !! "article_id" = Some (PList [PStr "abc123"]).
Proof.
  destruct (get_access_single_id Demo.sign_and_encode
              (Demo.urlopen_read (Returned "body"))
              (Demo.json_loads (PDict Demo.response_ok)) (PStr "abc123") None
              Demo.state0 eq_refl)
    as (Hsame & (call & Hcalls & _ & _ & Hids & _) & _).
  split; [exact Hsame|]. exists call. split; [exact Hcalls | exact Hids].
Defined.
